(** * DataTable: sorting and selection of the tabular view

    A shallow embedding of [DataTable] (components/DataTable): the sort
    state and its header-click transition, the memoised sorted view, the
    row and select-all selection handlers and the table body.  Of the
    header row only the two handlers it triggers are here.

    JavaScript arrays are mutable objects that the component receives by
    reference ([data], [selectedRows]) and hands back by reference (the
    argument of [onRowSelect]).  They live in a store of arrays, a
    reference being an index in it; [[...xs]] allocates, [xs.sort(f)]
    overwrites in place. *)

From stdpp Require Import base numbers option list gmap strings sorting pretty.

Local Open Scope Z_scope.

(** ** Values of record fields *)

(** A JavaScript number, as far as the table looks at it: an integer, or
    NaN, which is different from itself and neither below nor above
    anything.  Fractions and the infinities are left out; [===] and [<]
    treat them like the integers. *)
Inductive number :=
  | Fin (z : Z)
  | NaN.

(** [Record<string, any>]: the primitive values a field can hold. *)
Inductive value :=
  | VUndefined
  | VNull
  | VBool (b : bool)
  | VNum (n : number)
  | VStr (s : string).

#[global] Instance number_eq_dec : EqDecision number.
Proof. solve_decision. Defined.

#[global] Instance value_eq_dec : EqDecision value.
Proof. solve_decision. Defined.

(** A record is an object with string keys; reading an absent field gives
    [undefined]. *)
Abbreviation record := (gmap string value).

Definition get (r : record) (k : string) : value :=
  default VUndefined (r !! k).

(** [a === b] *)
Definition strict_eq (a b : value) : bool :=
  match a, b with
  | VUndefined, VUndefined => true
  | VNull, VNull => true
  | VBool x, VBool y => bool_decide (x = y)
  | VNum (Fin x), VNum (Fin y) => bool_decide (x = y)
  | VStr x, VStr y => bool_decide (x = y)
  | _, _ => false
  end.

(** [a == null] *)
Definition nullish (a : value) : bool :=
  match a with
  | VUndefined | VNull => true
  | _ => false
  end.

(** [a ?? b] *)
Definition coalesce (a b : value) : value :=
  if nullish a then b else a.

(** ** The comparator and the sort *)

Inductive SortOrder :=
  | asc
  | desc.

#[global] Instance SortOrder_eq_dec : EqDecision SortOrder.
Proof. solve_decision. Defined.

(** [interface SortState]; [null] is [None]. *)
Record SortState := {
  skey : option string;
  order : option SortOrder
}.

#[global] Instance SortState_eq_dec : EqDecision SortState.
Proof. solve_decision. Defined.

(** Stable insertion sort standing for [Array.prototype.sort]: elements
    are taken left to right and each one is put in front of the first
    element it compares below.  For a consistent comparator this is the
    one result ECMAScript allows (the sort is stable). *)
Section array_sort.
Context {A : Type} (compareFn : A → A → Z).

Fixpoint sort_insert (x : A) (l : list A) : list A :=
  match l with
  | [] => [x]
  | y :: l' =>
      if compareFn x y <? 0 then x :: y :: l' else y :: sort_insert x l'
  end.

Definition sort_list (l : list A) : list A :=
  fold_left (λ acc x, sort_insert x acc) l [].
End array_sort.

(** ** The store of arrays and the calls made to the host *)

Definition ref := nat.

Inductive call :=
  | RowSelect (selectedRows : ref)
  | RowClick (r : record) (index : nat).

Record world := {
  arrays : list (list record);
  calls : list call
}.

Definition M (A : Type) : Type := world → A * world.

#[global] Instance M_ret : MRet M := λ A x w, (x, w).

#[global] Instance M_bind : MBind M :=
  λ A B f m w, let '(x, w') := m w in f x w'.

(** The elements of the array behind a reference. *)
Definition deref (r : ref) (w : world) : list record :=
  default [] (arrays w !! r).

Definition read (r : ref) : M (list record) := λ w, (deref r w, w).

(** A new array. *)
Definition alloc (xs : list record) : M ref :=
  λ w, (length (arrays w), {| arrays := arrays w ++ [xs]; calls := calls w |}).

(** [[...r]] *)
Definition spread (r : ref) : M ref :=
  xs ← read r ; alloc xs.

(** [r.sort(compareFn)]: sorts the array in place and returns it. *)
Definition array_sort (compareFn : record → record → Z) (r : ref) : M ref :=
  λ w, (r, {| arrays := <[r := sort_list compareFn (deref r w)]> (arrays w);
              calls := calls w |}).

(** Calling a callback of the host. *)
Definition invoke (c : call) : M unit :=
  λ w, (tt, {| arrays := arrays w; calls := calls w ++ [c] |}).

(** ** Columns and props *)

(** A rendered node: text, or an element with attributes and children. *)
Inductive attr :=
  | AStr (s : string)
  | ANum (n : Z)
  | ABool (b : bool)
  | AKey (v : value).

#[warnings="-register-all"]
Inductive vnode :=
  | Text (s : string)
  | Elem (tag : string) (attrs : list (string * attr)) (children : list vnode).

(** [interface Column<T>] ([title] and [width] only feed the header). *)
Record Column := {
  key : string;
  title : string;
  dataIndex : string;
  sortable : bool;
  render : option (value → record → nat → vnode)
}.

(** [rowKey?: keyof T | ((record: T) => string | number)] *)
Inductive RowKey :=
  | KeyField (k : string)
  | KeyFn (f : record → value).

(** [interface DataTableProps<T>].  [onRowSelect] and [onRowClick] say
    whether the host passed the callback; a call of it is recorded in the
    world. *)
Record DataTableProps := {
  data : ref;
  columns : list Column;
  loading : bool;
  loadingText : string;
  emptyText : string;
  selectable : bool;
  selectedRows : ref;
  onRowSelect : bool;
  onRowClick : bool;
  className : string;
  rowKey : RowKey
}.

(** [useState<SortState>({ key: null, order: null })] *)
Definition initialSortState : SortState := {| skey := None; order := None |}.

(** Truthiness of [sortState.key]: [null] and the empty string are falsy. *)
Definition truthy_key (k : option string) : bool :=
  match k with
  | None => false
  | Some s => negb (bool_decide (s = EmptyString))
  end.

(** Truthiness of [sortState.order]: ['asc'] and ['desc'] are truthy. *)
Definition truthy_order (o : option SortOrder) : bool :=
  match o with
  | None => false
  | Some _ => true
  end.

Section DataTable.
(** The two built-ins the comparator relies on: [a.localeCompare(b)] on
    strings, and the conversion of a string to a number that [<] does
    when one side is not a string. *)
Variable localeCompare : string → string → Z.
Variable stringToNumber : string → number.

(** ToNumber *)
Definition toNumber (a : value) : number :=
  match a with
  | VUndefined => NaN
  | VNull => Fin 0
  | VBool b => Fin (if b then 1 else 0)
  | VNum n => n
  | VStr s => stringToNumber s
  end.

(** [a < b]: two strings compare by code units, anything else as
    numbers, and a NaN on either side makes it false. *)
Definition js_lt (a b : value) : bool :=
  match a, b with
  | VStr s, VStr t => String.ltb s t
  | _, _ =>
      match toNumber a, toNumber b with
      | Fin x, Fin y => x <? y
      | _, _ => false
      end
  end.

(** The function passed to [sort] in [sortedData]. *)
Definition comparator (column : Column) (sortState : SortState)
    (a b : record) : Z :=
  let aValue := get a (dataIndex column) in
  let bValue := get b (dataIndex column) in
  if strict_eq aValue bValue then 0
  else
    let comparison :=
      if nullish aValue then -1
      else if nullish bValue then 1
      else
        match aValue, bValue with
        | VStr s, VStr t => localeCompare s t
        | _, _ => if js_lt aValue bValue then -1 else 1
        end in
    if bool_decide (order sortState = Some asc) then comparison
    else - comparison.

(** [const sortedData = useMemo(...)] *)
Definition sortedData (p : DataTableProps) (sortState : SortState) : M ref :=
  if negb (truthy_key (skey sortState)) || negb (truthy_order (order sortState))
  then mret (data p)
  else
    match find (λ col, bool_decide (Some (key col) = skey sortState))
               (columns p) with
    | None => mret (data p)
    | Some column =>
        copy ← spread (data p) ;
        array_sort (comparator column sortState) copy
    end.

(** [handleSort]: the argument of [setSortState], applied to the
    previous state. *)
Definition handleSort (column : Column) (prev : SortState) : SortState :=
  if negb (sortable column) then prev
  else if bool_decide (skey prev = Some (key column)) then
    let nextOrder :=
      if bool_decide (order prev = Some asc) then Some desc
      else if bool_decide (order prev = Some desc) then None
      else Some asc in
    {| skey := if truthy_order nextOrder then Some (key column) else None;
       order := nextOrder |}
  else {| skey := Some (key column); order := Some asc |}.

(** [getRowKey] *)
Definition getRowKey (p : DataTableProps) (r : record) (index : nat) : value :=
  match rowKey p with
  | KeyFn f => f r
  | KeyField k => coalesce (get r k) (VNum (Fin (Z.of_nat index)))
  end.

(** [handleRowSelect] *)
Definition handleRowSelect (p : DataTableProps) (r : record) (checked : bool)
    : M unit :=
  if negb (onRowSelect p) then mret tt
  else
    let recordKey := getRowKey p r 0 in
    newSelectedRows ←
      (if checked then
         xs ← read (selectedRows p) ; alloc (xs ++ [r])
       else
         xs ← read (selectedRows p) ;
         alloc (filter (λ row, strict_eq (getRowKey p row 0) recordKey = false) xs)) ;
    invoke (RowSelect newSelectedRows).

(** [handleSelectAll] *)
Definition handleSelectAll (p : DataTableProps) (checked : bool) : M unit :=
  if negb (onRowSelect p) then mret tt
  else if checked then
    copy ← spread (data p) ; invoke (RowSelect copy)
  else
    empty ← alloc [] ; invoke (RowSelect empty).

(** [isRowSelected] *)
Definition isRowSelected (p : DataTableProps) (r : record) : M bool :=
  let recordKey := getRowKey p r 0 in
  xs ← read (selectedRows p) ;
  mret (existsb (λ row, strict_eq (getRowKey p row 0) recordKey) xs).

(** ** The table body *)

Definition cls (c : string) : string * attr := ("className"%string, AStr c).

(** [String(v)] *)
Definition String_of (v : value) : string :=
  match v with
  | VUndefined => "undefined"
  | VNull => "null"
  | VBool b => if b then "true" else "false"
  | VNum (Fin z) => pretty z
  | VNum NaN => "NaN"
  | VStr s => s
  end.

(** [LoadingSkeleton]: three placeholder rows.  The component is
    declared in [DataTable] and rendered nowhere. *)
Definition LoadingSkeleton (p : DataTableProps) : vnode :=
  Elem "div" [cls "animate-pulse"]
    (map (λ index : nat,
       Elem "div" [("key"%string, AKey (VNum (Fin (Z.of_nat index)))); cls "table-row"]
         ((if selectable p then
             [Elem "div" [cls "table-cell"]
                [Elem "div" [cls "w-4 h-4 bg-gray-200 dark:bg-gray-700 rounded"] []]]
           else []) ++
          map (λ column,
            Elem "div" [("key"%string, AKey (VStr (key column))); cls "table-cell"]
              [Elem "div" [cls "h-4 bg-gray-200 dark:bg-gray-700 rounded w-3/4"] []])
            (columns p)))
       (seq 0 3)).

(** [colSpan={columns.length + (selectable ? 1 : 0)}] *)
Definition colSpan (p : DataTableProps) : string * attr :=
  ("colSpan"%string,
   ANum (Z.of_nat (length (columns p)) + (if selectable p then 1 else 0))).

(** The row shown while [loading]: one cell over the whole width with
    the spinner and [loadingText] (the drawing attributes of the svg are
    left out). *)
Definition loadingRow (p : DataTableProps) : vnode :=
  Elem "tr" []
    [Elem "td" [colSpan p; cls "table-cell text-center py-8"]
       [Elem "div" [cls "flex items-center justify-center"]
          [Elem "svg" [cls "animate-spin -ml-1 mr-3 h-5 w-5 text-primary-600"]
             [Elem "circle" [cls "opacity-25"] [];
              Elem "path" [cls "opacity-75"] []];
           Text (loadingText p)]]].

(** The row shown when there is nothing to show. *)
Definition emptyRow (p : DataTableProps) : vnode :=
  Elem "tr" []
    [Elem "td" [colSpan p;
                cls "table-cell text-center py-8 text-gray-500 dark:text-gray-400"]
       [Text (emptyText p)]].

(** One cell of a data row. *)
Definition dataCell (r : record) (index : nat) (column : Column) : vnode :=
  Elem "td" [("key"%string, AKey (VStr (key column))); cls "table-cell"]
    [match render column with
     | Some f => f (get r (dataIndex column)) r index
     | None => Text (String_of (coalesce (get r (dataIndex column)) (VStr "")))
     end].

(** One data row. *)
Definition dataRow (p : DataTableProps) (r : record) (index : nat) : M vnode :=
  isRowSelected p r ≫= λ sel : bool,
  mret (Elem "tr"
    [("key"%string, AKey (getRowKey p r index));
     cls ("table-row " +:+ (if onRowClick p then "cursor-pointer" else "") +:+ " " +:+
          (if sel then "bg-primary-50 dark:bg-primary-900/20" else ""))]
    ((if selectable p then
        [Elem "td" [cls "table-cell"]
           [Elem "input"
              [("type"%string, AStr "checkbox");
               ("checked"%string, ABool sel);
               cls "rounded border-gray-300 dark:border-gray-600 text-primary-600 focus:ring-primary-500 dark:focus:ring-primary-400";
               ("aria-label"%string, AStr ("Select row " +:+ pretty (index + 1)%nat))]
              []]]
      else []) ++
     map (dataCell r index) (columns p))).

(** [sortedData.map((record, index) => ...)], from [index] on. *)
Fixpoint dataRows (p : DataTableProps) (index : nat) (rows : list record)
    : M (list vnode) :=
  match rows return M (list vnode) with
  | [] => mret []
  | r :: rows' =>
      row ← dataRow p r index ;
      rest ← dataRows p (S index) rows' ;
      mret (row :: rest)
  end.

(** The children of [<tbody>] in one render pass; the hook computing
    [sortedData] runs first, whatever is shown afterwards. *)
Definition tbody (p : DataTableProps) (sortState : SortState)
    : M (list vnode) :=
  sorted ← sortedData p sortState ;
  if loading p then mret [loadingRow p]
  else
    rows ← read sorted ;
    if bool_decide (length rows = 0%nat) then mret [emptyRow p]
    else dataRows p 0 rows.

End DataTable.

(** ** Derived notions used in the statements *)

(** The invariant of the sort state: no active column exactly when there
    is no order. *)
Definition sortInvariant (s : SortState) : Prop :=
  skey s = None ↔ order s = None.

(** What [sortedData] shows, as a function of the elements of [data], the
    columns and the sort state. *)
Definition sortedView (localeCompare : string → string → Z)
    (stringToNumber : string → number)
    (cols : list Column) (sortState : SortState) (xs : list record)
    : list record :=
  if negb (truthy_key (skey sortState)) || negb (truthy_order (order sortState))
  then xs
  else
    match find (λ col, bool_decide (Some (key col) = skey sortState)) cols with
    | None => xs
    | Some column =>
        sort_list (comparator localeCompare stringToNumber column sortState) xs
    end.

(** The comparator as the specification words it: equal values give 0; a
    nullish value against a defined one gives -1 (nullish on the left) or
    +1 (nullish on the right); two strings give the locale comparison;
    anything else gives -1 when [a < b] and +1 otherwise; a descending
    order negates the result. *)
Definition comparator_as_specified (localeCompare : string → string → Z)
    (stringToNumber : string → number) (o : SortOrder) (a b : value) : Z :=
  let result :=
    if strict_eq a b then 0
    else if nullish a && negb (nullish b) then -1
    else if nullish b && negb (nullish a) then 1
    else
      match a, b with
      | VStr s, VStr t => localeCompare s t
      | _, _ => if js_lt stringToNumber a b then -1 else 1
      end in
  match o with
  | asc => result
  | desc => - result
  end.

(** The comparator with the first clause on nullish values changed to
    what the code does: a nullish left value gives -1 whatever the right
    value is. *)
Definition comparator_of_values (localeCompare : string → string → Z)
    (stringToNumber : string → number) (o : SortOrder) (a b : value) : Z :=
  let result :=
    if strict_eq a b then 0
    else if nullish a then -1
    else if nullish b then 1
    else
      match a, b with
      | VStr s, VStr t => localeCompare s t
      | _, _ => if js_lt stringToNumber a b then -1 else 1
      end in
  match o with
  | asc => result
  | desc => - result
  end.

(** The sort state in which [column] is active with order [o]. *)
Definition sortingOn (column : Column) (o : SortOrder) : SortState :=
  {| skey := Some (key column); order := Some o |}.

(** A check on every pair of elements at two different positions. *)
Fixpoint pairwise {A} (P : A → A → bool) (l : list A) : bool :=
  match l with
  | [] => true
  | x :: l' => forallb (P x) l' && pairwise P l'
  end.

(** The values of a column are pairwise different ([!==]). *)
Definition distinct_values (column : Column) (xs : list record) : bool :=
  pairwise (λ a b, negb (strict_eq (get a (dataIndex column)) (get b (dataIndex column)))
                   && negb (strict_eq (get b (dataIndex column)) (get a (dataIndex column))))
           xs.

(** The comparator never returns 0 on two different positions. *)
Definition no_ties {A} (compareFn : A → A → Z) (l : list A) : bool :=
  pairwise (λ a b, negb (compareFn a b =? 0) && negb (compareFn b a =? 0)) l.

(** The comparator is consistent on a list: on two different positions
    it gives opposite, non-zero signs for the two argument orders, and
    "compares below" is transitive. *)
Definition opposite_signs {A} (compareFn : A → A → Z) (a b : A) : bool :=
  (compareFn a b <? 0) && (0 <? compareFn b a)
  || (0 <? compareFn a b) && (compareFn b a <? 0).

Definition transitive_on {A} (compareFn : A → A → Z) (l : list A) : bool :=
  forallb (λ a, forallb (λ b, forallb (λ c,
    implb ((compareFn a b <? 0) && (compareFn b c <? 0)) (compareFn a c <? 0))
    l) l) l.

Definition consistent_on {A} (compareFn : A → A → Z) (l : list A) : bool :=
  pairwise (opposite_signs compareFn) l && transitive_on compareFn l.

(** The host feeding an emitted selection back as [selectedRows]. *)
Definition withSelectedRows (p : DataTableProps) (r : ref) : DataTableProps :=
  {| data := data p; columns := columns p; loading := loading p;
     loadingText := loadingText p; emptyText := emptyText p;
     selectable := selectable p; selectedRows := r;
     onRowSelect := onRowSelect p; onRowClick := onRowClick p;
     className := className p; rowKey := rowKey p |}.

(** The argument of the last [onRowSelect] call. *)
Definition lastSelection (w : world) : option ref :=
  match last (calls w) with
  | Some (RowSelect r) => Some r
  | _ => None
  end.

(** A block of elements satisfying [P] followed by a block of elements
    that do not. *)
Definition split_by {A} (P : A → bool) (l : list A) : Prop :=
  ∃ l1 l2, l = l1 ++ l2 ∧ Forall (λ x, P x = true) l1 ∧ Forall (λ x, P x = false) l2.

(** A header click followed by the render pass it causes: the new sort
    state, the array the body shows and the world after it. *)
Definition clickAndRender (localeCompare : string → string → Z)
    (stringToNumber : string → number) (p : DataTableProps) (column : Column)
    (s : SortState) (w : world) : SortState * ref * world :=
  let s' := handleSort column s in
  let '(r, w') := sortedData localeCompare stringToNumber p s' w in
  (s', r, w').

(** Checking the row of [r], the host feeding the emitted selection back,
    then unchecking the same row: the elements of the selection emitted
    last ([None] when a callback was not called). *)
Definition checkThenUncheck (p : DataTableProps) (r : record) (w : world)
    : option (list record) :=
  let w1 := snd (handleRowSelect p r true w) in
  match lastSelection w1 with
  | None => None
  | Some s1 =>
      let w2 := snd (handleRowSelect (withSelectedRows p s1) r false w1) in
      match lastSelection w2 with
      | None => None
      | Some s2 => Some (deref s2 w2)
      end
  end.

(** The rows of the skeleton. *)
Definition skeletonRows (p : DataTableProps) : list vnode :=
  match LoadingSkeleton p with
  | Elem _ _ rows => rows
  | Text _ => []
  end.

(** The cells of a row. *)
Definition cells (row : vnode) : list vnode :=
  match row with
  | Elem _ _ cs => cs
  | Text _ => []
  end.

(** ** Sample inputs *)

Module Sample.

(** A collation by code units and a conversion that knows no numeral,
    for running the definitions. *)
Definition localeCompare (s t : string) : Z :=
  match String.compare s t with
  | Lt => -1
  | Eq => 0
  | Gt => 1
  end.

Definition stringToNumber (s : string) : number := NaN.

Definition row (id : Z) (v : value) : record :=
  {[ "id"%string := VNum (Fin id); "v"%string := v ]}.

Definition colV : Column :=
  {| key := "v"; title := "V"; dataIndex := "v"; sortable := true;
     render := None |}.

Definition colId : Column :=
  {| key := "id"; title := "Id"; dataIndex := "id"; sortable := false;
     render := None |}.

Definition rows : list record :=
  [row 1 (VNum (Fin 20)); row 2 (VNum (Fin 10)); row 3 (VNum (Fin 30))].

(** A world with [rows] at reference 0 and an empty selection at 1. *)
Definition w0 : world := {| arrays := [rows; []]; calls := [] |}.

Definition props : DataTableProps :=
  {| data := 0%nat; columns := [colId; colV]; loading := false;
     loadingText := "Loading..."; emptyText := "No data available";
     selectable := true; selectedRows := 1%nat;
     onRowSelect := true; onRowClick := false;
     className := ""; rowKey := KeyField "id" |}.

Definition loadingProps : DataTableProps :=
  {| data := 0%nat; columns := [colId; colV]; loading := true;
     loadingText := "Loading..."; emptyText := "No data available";
     selectable := true; selectedRows := 1%nat;
     onRowSelect := true; onRowClick := false;
     className := ""; rowKey := KeyField "id" |}.

(** A world whose selection, at reference 1, holds the first row. *)
Definition wSel : world :=
  {| arrays := [rows; [row 1 (VNum (Fin 20))]]; calls := [] |}.

(** A row whose [id] is NaN. *)
Definition rowNaN : record :=
  {[ "id"%string := VNum NaN; "v"%string := VStr "x" ]}.

(** A column holding 1, 3, NaN, 4, 2. *)
Definition rowsNaN : list record :=
  [row 1 (VNum (Fin 1)); row 2 (VNum (Fin 3)); row 3 (VNum NaN);
   row 4 (VNum (Fin 4)); row 5 (VNum (Fin 2))].

End Sample.

(** ** The header row and the whole table *)

(** [isAllSelected] and [isIndeterminate]: they compare the two lengths
    and look at no key. *)
Definition isAllSelected (p : DataTableProps) : M bool :=
  d ← read (data p) ;
  s ← read (selectedRows p) ;
  mret (bool_decide (0 < length d)%nat && bool_decide (length s = length d)).

Definition isIndeterminate (p : DataTableProps) : M bool :=
  d ← read (data p) ;
  s ← read (selectedRows p) ;
  mret (bool_decide (0 < length s)%nat && bool_decide (length s < length d)%nat).

(** [renderSortIcon]: [null] for a column that is not sortable, else the
    two arrows, each one lit or grey (the drawing attributes of the svg
    are left out). *)
Definition renderSortIcon (sortState : SortState) (column : Column)
    : option vnode :=
  if negb (sortable column) then None
  else
    let isActive := bool_decide (skey sortState = Some (key column)) in
    let order := if isActive then order sortState else None in
    Some (Elem "span" [cls "ml-1 inline-flex flex-col"]
      [Elem "svg"
         [cls ("w-3 h-3 " +:+
               (if isActive && bool_decide (order = Some asc)
                then "text-primary-600 dark:text-primary-400"
                else "text-gray-400"))]
         [Elem "path" [] []];
       Elem "svg"
         [cls ("w-3 h-3 -mt-1 " +:+
               (if isActive && bool_decide (order = Some desc)
                then "text-primary-600 dark:text-primary-400"
                else "text-gray-400"))]
         [Elem "path" [] []]]).

(** One header cell ([style={{ width }}] is left out). *)
Definition headerCell (sortState : SortState) (column : Column) : vnode :=
  Elem "th"
    [("key"%string, AKey (VStr (key column)));
     cls ("table-header-cell " +:+
          (if sortable column then "cursor-pointer select-none" else ""))]
    [Elem "div" [cls "flex items-center"]
       (Text (title column) ::
        match renderSortIcon sortState column with
        | Some icon => [icon]
        | None => []
        end)].

(** [<thead>] *)
Definition thead (p : DataTableProps) (sortState : SortState) : M vnode :=
  isAllSelected p ≫= λ allSelected : bool,
  isIndeterminate p ≫= λ indeterminate : bool,
  mret (Elem "thead" [cls "table-header"]
    [Elem "tr" []
       ((if selectable p then
           [Elem "th" [cls "table-header-cell w-12"]
              [Elem "input"
                 [("type"%string, AStr "checkbox");
                  ("checked"%string, ABool allSelected);
                  ("indeterminate"%string, ABool indeterminate);
                  cls "rounded border-gray-300 dark:border-gray-600 text-primary-600 focus:ring-primary-500 dark:focus:ring-primary-400";
                  ("aria-label"%string, AStr "Select all rows")]
                 []]]
         else []) ++
        map (headerCell sortState) (columns p))]).

(** What [DataTable] returns in one render pass.  The hook runs first
    (inside [tbody]); the header only reads the two arrays. *)
Definition DataTable (localeCompare : string → string → Z)
    (stringToNumber : string → number)
    (p : DataTableProps) (sortState : SortState) : M vnode :=
  tbody localeCompare stringToNumber p sortState ≫= λ body : list vnode,
  thead p sortState ≫= λ head : vnode,
  mret (Elem "div" [cls ("table-container " +:+ className p)]
    [Elem "table" [cls "table"]
       [head; Elem "tbody" [cls "table-body"] body]]).

(** [onClick={() => onRowClick?.(record, index)}] on a row. *)
Definition handleRowClick (p : DataTableProps) (r : record) (index : nat)
    : M unit :=
  if onRowClick p then invoke (RowClick r index) else mret tt.

(** The props as a caller passes them, before the defaults of the
    parameter list apply. *)
Module Passed.

Record DataTableProps := {
  data : ref;
  columns : list Column;
  loading : option bool;
  loadingText : option string;
  emptyText : option string;
  selectable : option bool;
  selectedRows : option ref;
  onRowSelect : bool;
  onRowClick : bool;
  className : option string;
  rowKey : option RowKey
}.

End Passed.

(** The defaults of the destructured parameter; [selectedRows = []]
    makes a new empty array in every render pass that needs it. *)
Definition withDefaults (passed : Passed.DataTableProps) : M DataTableProps :=
  (match Passed.selectedRows passed with
   | Some r => mret r
   | None => alloc []
   end) ≫= λ selected : ref,
  mret {| data := Passed.data passed;
          columns := Passed.columns passed;
          loading := default false (Passed.loading passed);
          loadingText := default "Loading..."%string (Passed.loadingText passed);
          emptyText := default "No data available"%string (Passed.emptyText passed);
          selectable := default false (Passed.selectable passed);
          selectedRows := selected;
          onRowSelect := Passed.onRowSelect passed;
          onRowClick := Passed.onRowClick passed;
          className := default ""%string (Passed.className passed);
          rowKey := default (KeyField "id") (Passed.rowKey passed) |}.

(** ** Observations on rendered nodes and on columns *)

#[global] Instance attr_eq_dec : EqDecision attr.
Proof. solve_decision. Defined.

Definition attrsOf (n : vnode) : list (string * attr) :=
  match n with
  | Elem _ a _ => a
  | Text _ => []
  end.

Fixpoint attrOf (name : string) (a : list (string * attr)) : option attr :=
  match a with
  | [] => None
  | (k, v) :: a' => if bool_decide (k = name) then Some v else attrOf name a'
  end.

(** The number of columns a cell takes: its [colSpan], or 1. *)
Definition cellSpan (cell : vnode) : Z :=
  match attrOf "colSpan" (attrsOf cell) with
  | Some (ANum n) => n
  | _ => 1
  end.

(** The number of columns a row takes. *)
Definition rowSpan (row : vnode) : Z :=
  foldr (λ cell acc, cellSpan cell + acc) 0 (cells row).

(** The cells of the header row of a [<thead>]. *)
Definition headerCells (head : vnode) : list vnode :=
  match cells head with
  | tr :: _ => cells tr
  | [] => []
  end.

(** The number of lit arrows of a sort icon. *)
Definition litArrows (icon : option vnode) : nat :=
  match icon with
  | None => 0
  | Some n =>
      length (filter (λ arrow,
                attrOf "className" (attrsOf arrow)
                = Some (AStr "w-3 h-3 text-primary-600 dark:text-primary-400")
                ∨ attrOf "className" (attrsOf arrow)
                  = Some (AStr "w-3 h-3 -mt-1 text-primary-600 dark:text-primary-400"))
              (cells n))
  end.

(** A ranking of the rows that the comparator follows: on the rows of
    the list it is negative exactly below, positive exactly above. *)
Definition ranked_by {A} (compareFn : A → A → Z) (rank : A → Z) (l : list A)
    : bool :=
  forallb (λ a, forallb (λ b,
    Bool.eqb (compareFn a b <? 0) (rank a <? rank b)
    && Bool.eqb (0 <? compareFn a b) (rank b <? rank a)) l) l.

(** Every value of the column is an integer. *)
Definition integer_column (column : Column) (xs : list record) : bool :=
  forallb (λ r, match get r (dataIndex column) with
                | VNum (Fin _) => true
                | _ => false
                end) xs.

(** The integer in the column, 0 where there is none. *)
Definition integer_of (column : Column) (r : record) : Z :=
  match get r (dataIndex column) with
  | VNum (Fin z) => z
  | _ => 0
  end.

(** ** The demo page *)

Module Demo.

Definition user (id name email role status lastLogin : string) : record :=
  {[ "id"%string := VStr id; "name"%string := VStr name;
     "email"%string := VStr email; "role"%string := VStr role;
     "status"%string := VStr status; "lastLogin"%string := VStr lastLogin ]}.

Definition demoUsers : list record :=
  [user "1" "John Doe" "john.doe@example.com" "Admin" "active" "2024-01-15";
   user "2" "Jane Smith" "jane.smith@example.com" "User" "active" "2024-01-14";
   user "3" "Bob Johnson" "bob.johnson@example.com" "Moderator" "inactive" "2024-01-10";
   user "4" "Alice Brown" "alice.brown@example.com" "User" "active" "2024-01-16"].

Definition column (k t : string) : Column :=
  {| key := k; title := t; dataIndex := k; sortable := true; render := None |}.

Definition statusBadge (v : value) (r : record) (index : nat) : vnode :=
  Elem "span"
    [cls ("inline-flex px-2 py-1 text-xs font-semibold rounded-full " +:+
          (if strict_eq v (VStr "active")
           then "bg-green-100 text-green-800 dark:bg-green-900 dark:text-green-200"
           else "bg-red-100 text-red-800 dark:bg-red-900 dark:text-red-200"))]
    [Text (String_of v)].

Definition userColumns : list Column :=
  [column "name" "Name"; column "email" "Email"; column "role" "Role";
   {| key := "status"; title := "Status"; dataIndex := "status";
      sortable := true; render := Some statusBadge |};
   column "lastLogin" "Last Login"].

(** The first table of the page: [data], [columns], [selectable],
    [onRowSelect] and [className], and no [selectedRows]. *)
Definition userTable : Passed.DataTableProps :=
  {| Passed.data := 0%nat; Passed.columns := userColumns;
     Passed.loading := None; Passed.loadingText := None;
     Passed.emptyText := None; Passed.selectable := Some true;
     Passed.selectedRows := None; Passed.onRowSelect := true;
     Passed.onRowClick := false; Passed.className := Some "shadow-sm"%string;
     Passed.rowKey := None |}.

(** The world of the page: [demoUsers] at reference 0. *)
Definition w0 : world := {| arrays := [demoUsers]; calls := [] |}.

(** The "empty state" table of the page: no rows and its own text. *)
Definition emptyTable : Passed.DataTableProps :=
  {| Passed.data := 0%nat; Passed.columns := userColumns;
     Passed.loading := None; Passed.loadingText := None;
     Passed.emptyText := Some "No users found"%string;
     Passed.selectable := None;
     Passed.selectedRows := None; Passed.onRowSelect := false;
     Passed.onRowClick := false; Passed.className := Some "shadow-sm"%string;
     Passed.rowKey := None |}.

Definition wEmpty : world := {| arrays := [[]]; calls := [] |}.

End Demo.

(** ** Inputs for the edge cases *)

Module Cases.

(** A column of integers with ties. *)
Definition scores : list record :=
  [Sample.row 1 (VNum (Fin 20)); Sample.row 2 (VNum (Fin 10));
   Sample.row 3 (VNum (Fin 20)); Sample.row 4 (VNum (Fin 10))].

(** Two records without [id], the second one selected. *)
Definition noId1 : record := {[ "v"%string := VStr "a" ]}.
Definition noId2 : record := {[ "v"%string := VStr "b" ]}.

Definition wNoId : world :=
  {| arrays := [[noId1; noId2]; [noId2]]; calls := [] |}.

(** A sortable column with an empty key, and a second column with the
    key of [Sample.colV] that reads [id]. *)
Definition blank : Column :=
  {| key := ""; title := "V"; dataIndex := "v"; sortable := true;
     render := None |}.

Definition shadow : Column :=
  {| key := "v"; title := "Id again"; dataIndex := "id"; sortable := true;
     render := None |}.

End Cases.


(** * Properties *)

(** ** The sort state *)

(** C2. A header click on a sortable column [column] moves the sort
    state as follows: when [column] is not the active column (or no
    column is active) the new state is ([column], ascending); when it is
    the active column, ascending becomes descending and descending
    becomes none, the active key being cleared with it.  A click on a
    column that is not sortable leaves the state as it is. *)
Theorem handleSort_transition (column : Column) (prev : SortState) :
  (sortable column = false → handleSort column prev = prev) ∧
  (sortable column = true →
     (skey prev ≠ Some (key column) →
        handleSort column prev = {| skey := Some (key column); order := Some asc |}) ∧
     (skey prev = Some (key column) → order prev = Some asc →
        handleSort column prev = {| skey := Some (key column); order := Some desc |}) ∧
     (skey prev = Some (key column) → order prev = Some desc →
        handleSort column prev = {| skey := None; order := None |})).
Proof.
  unfold handleSort. split; [intros -> | intros ->]; simpl; [done|].
  split; [|split].
  - intros Hne. by rewrite bool_decide_eq_false_2.
  - intros Hk Ho. rewrite bool_decide_eq_true_2 by done.
    by rewrite Ho.
  - intros Hk Ho. rewrite bool_decide_eq_true_2 by done.
    by rewrite Ho.
Qed.

Lemma handleSort_transition_witness :
  handleSort Sample.colV (sortingOn Sample.colV asc) = sortingOn Sample.colV desc.
Proof.
  apply (handleSort_transition Sample.colV (sortingOn Sample.colV asc));
    reflexivity.
Defined.

(** Every header click on a sortable column ends in a state that
    satisfies the invariant, whatever the state before. *)
Lemma handleSort_sortable_invariant (column : Column) (prev : SortState) :
  sortable column = true → sortInvariant (handleSort column prev).
Proof.
  intros Hs. unfold handleSort, sortInvariant. rewrite Hs. simpl.
  repeat case_bool_decide; simpl; split; congruence.
Qed.

(** C9. The active column key is null if and only if the order is null:
    this holds in the initial sort state and every header click keeps
    it. *)
Theorem sortInvariant_preserved :
  sortInvariant initialSortState ∧
  ∀ (column : Column) (prev : SortState),
    sortInvariant prev → sortInvariant (handleSort column prev).
Proof.
  split; [done|]. intros column prev Hinv.
  destruct (sortable column) eqn:Hs.
  - by apply handleSort_sortable_invariant.
  - unfold handleSort. by rewrite Hs.
Qed.

Lemma sortInvariant_preserved_witness :
  sortInvariant (handleSort Sample.colV initialSortState).
Proof.
  apply (proj2 sortInvariant_preserved Sample.colV initialSortState).
  unfold sortInvariant. simpl. done.
Defined.

(** The invariant along any sequence of header clicks from the initial
    state. *)
Lemma sortInvariant_reachable (clicks : list Column) :
  sortInvariant (fold_left (λ s column, handleSort column s) clicks initialSortState).
Proof.
  assert (H : ∀ s, sortInvariant s →
    sortInvariant (fold_left (λ s column, handleSort column s) clicks s)).
  { induction clicks as [|c clicks IH]; intros s Hs; simpl; [done|].
    apply IH. destruct (sortable c) eqn:Hc.
    - by apply handleSort_sortable_invariant.
    - unfold handleSort. by rewrite Hc. }
  by apply H.
Qed.

(** ** The sorted view and the store *)

Section sortedData_facts.
Variable localeCompare : string → string → Z.
Variable stringToNumber : string → number.

Local Abbreviation sortedData' := (sortedData localeCompare stringToNumber).
Local Abbreviation sortedView' := (sortedView localeCompare stringToNumber).

(** What one evaluation of [sortedData] does: the reference it returns
    holds the sorted view of the elements of [data]; it is [data]
    itself when nothing is sorted and a new array otherwise; arrays
    that existed before keep their elements and no callback runs. *)
Lemma sortedData_run (p : DataTableProps) (s : SortState) (w : world) :
  ∃ r w',
    sortedData' p s w = (r, w') ∧
    deref r w' = sortedView' (columns p) s (deref (data p) w) ∧
    (∀ r0, (r0 < length (arrays w))%nat → deref r0 w' = deref r0 w) ∧
    (length (arrays w) ≤ length (arrays w'))%nat ∧
    calls w' = calls w ∧
    (r = data p ∧ w' = w ∨ r = length (arrays w)).
Proof.
  unfold sortedData, sortedView.
  destruct (negb (truthy_key (skey s)) || negb (truthy_order (order s))).
  { exists (data p), w. repeat split; auto. }
  destruct (find _ (columns p)) as [column|].
  2: { exists (data p), w. repeat split; auto. }
  eexists _, _. split; [reflexivity|]. simpl.
  repeat split.
  - unfold deref. simpl.
    rewrite list_lookup_insert_eq by (rewrite length_app; simpl; lia).
    simpl. rewrite lookup_app_r by lia. by rewrite Nat.sub_diag.
  - intros r0 Hr0. unfold deref. simpl.
    rewrite list_lookup_insert_ne by lia. by rewrite lookup_app_l.
  - rewrite length_insert, length_app. lia.
  - by right.
Qed.

(** C10. When the active column key matches no entry of [columns], the
    view is the input [data] itself, unsorted, and nothing else
    happens: sorting falls back silently instead of failing. *)
Theorem sortedData_unknown_column (p : DataTableProps) (s : SortState)
    (w : world) :
  find (λ col, bool_decide (Some (key col) = skey s)) (columns p) = None →
  sortedData' p s w = (data p, w).
Proof.
  intros Hfind. unfold sortedData. rewrite Hfind.
  by destruct (negb _ || negb _).
Qed.

End sortedData_facts.

Lemma sortedData_unknown_column_witness :
  sortedData Sample.localeCompare Sample.stringToNumber Sample.props
    {| skey := Some "name"%string; order := Some asc |} Sample.w0
  = (0%nat, Sample.w0).
Proof.
  apply (sortedData_unknown_column Sample.localeCompare Sample.stringToNumber
           Sample.props {| skey := Some "name"%string; order := Some asc |}
           Sample.w0).
  reflexivity.
Defined.

Section component.
Variable localeCompare : string → string → Z.
Variable stringToNumber : string → number.

Local Abbreviation sortedData' := (sortedData localeCompare stringToNumber).
Local Abbreviation sortedView' := (sortedView localeCompare stringToNumber).
Local Abbreviation clickAndRender' := (clickAndRender localeCompare stringToNumber).
Local Abbreviation tbody' := (tbody localeCompare stringToNumber).

(** C4. Computing the sorted view leaves the array [data] as it was,
    like every other array that existed, and runs no callback: the sort
    works on a copy.  The elements of the view are a function of the
    elements of [data], the columns and the sort state only. *)
Theorem sortedData_keeps_input (p : DataTableProps) (s : SortState) (w : world) :
  (data p < length (arrays w))%nat →
  let r := fst (sortedData' p s w) in
  let w' := snd (sortedData' p s w) in
  deref (data p) w' = deref (data p) w ∧
  (∀ r0, (r0 < length (arrays w))%nat → deref r0 w' = deref r0 w) ∧
  calls w' = calls w ∧
  deref r w' = sortedView' (columns p) s (deref (data p) w).
Proof.
  intros Hdata.
  destruct (sortedData_run localeCompare stringToNumber p s w)
    as (r & w' & -> & Hview & Hframe & _ & Hcalls & _).
  simpl. auto.
Qed.

(** C5. From a sort state in which a sortable column is not active,
    three header clicks on it, each followed by its render pass, end in
    the state with no active column and show the array [data] itself
    with the elements it had at the start, in their input order.  (The
    passes in between show the ascending and the descending view.) *)
Theorem three_clicks_restore (p : DataTableProps) (column : Column)
    (s : SortState) (w : world) :
  sortable column = true →
  skey s ≠ Some (key column) →
  (data p < length (arrays w))%nat →
  let '(s1, r1, w1) := clickAndRender' p column s w in
  let '(s2, r2, w2) := clickAndRender' p column s1 w1 in
  let '(s3, r3, w3) := clickAndRender' p column s2 w2 in
  s3 = initialSortState ∧ r3 = data p ∧
  deref r3 w3 = deref (data p) w ∧
  deref r1 w1 = sortedView' (columns p) (sortingOn column asc) (deref (data p) w) ∧
  deref r2 w2 = sortedView' (columns p) (sortingOn column desc) (deref (data p) w).
Proof.
  intros Hs Hk Hdata. unfold clickAndRender.
  destruct (handleSort_transition column s) as [_ Hstep].
  destruct (Hstep Hs) as [H1 _]. rewrite (H1 Hk). clear H1 Hstep.
  destruct (sortedData_run localeCompare stringToNumber p
              (sortingOn column asc) w)
    as (r1 & w1 & E1 & Hv1 & Hf1 & Hl1 & _ & _).
  fold (sortingOn column asc). rewrite E1.
  destruct (handleSort_transition column (sortingOn column asc)) as [_ Hstep2].
  destruct (Hstep2 Hs) as (_ & H2 & _). rewrite H2 by done. clear H2 Hstep2.
  destruct (sortedData_run localeCompare stringToNumber p
              (sortingOn column desc) w1)
    as (r2 & w2 & E2 & Hv2 & Hf2 & Hl2 & _ & _).
  fold (sortingOn column desc). rewrite E2.
  destruct (handleSort_transition column (sortingOn column desc)) as [_ Hstep3].
  destruct (Hstep3 Hs) as (_ & _ & H3). rewrite H3 by done. clear H3 Hstep3.
  simpl. repeat split.
  - rewrite Hf2 by lia. by apply Hf1.
  - done.
  - rewrite Hv2. f_equal. by apply Hf1.
Qed.

(** C1, as the code has it.  While [loading] is true the body is one
    row: a single cell over the whole width with the spinner and
    [loadingText].  No data row is shown, whatever [data] holds.  The
    three-row skeleton is not part of the output. *)
Theorem tbody_loading (p : DataTableProps) (s : SortState) (w : world) :
  loading p = true →
  fst (tbody' p s w) = [loadingRow p].
Proof.
  intros Hl. unfold tbody.
  destruct (sortedData_run localeCompare stringToNumber p s w)
    as (r & w' & E & _).
  unfold mbind, M_bind. rewrite E, Hl. done.
Qed.

(** The skeleton, had it been rendered: three rows, each with one cell
    per column and one more when the table is selectable. *)
Lemma LoadingSkeleton_rows (p : DataTableProps) :
  length (skeletonRows p) = 3%nat ∧
  Forall (λ row, length (cells row)
                 = ((if selectable p then 1 else 0) + length (columns p))%nat)
         (skeletonRows p).
Proof.
  split; [done|]. unfold skeletonRows. simpl.
  repeat constructor; simpl; rewrite length_app, length_map;
    by destruct (selectable p).
Qed.

End component.

Lemma sortedData_keeps_input_witness :
  deref 0%nat (snd (sortedData Sample.localeCompare Sample.stringToNumber
                      Sample.props (sortingOn Sample.colV asc) Sample.w0))
  = Sample.rows.
Proof.
  assert (Hdata : (data Sample.props < length (arrays Sample.w0))%nat)
    by (simpl; lia).
  exact (proj1 (sortedData_keeps_input Sample.localeCompare Sample.stringToNumber
                  Sample.props (sortingOn Sample.colV asc) Sample.w0 Hdata)).
Defined.

Lemma three_clicks_restore_witness :
  let '(s1, r1, w1) :=
    clickAndRender Sample.localeCompare Sample.stringToNumber Sample.props
      Sample.colV initialSortState Sample.w0 in
  let '(s2, r2, w2) :=
    clickAndRender Sample.localeCompare Sample.stringToNumber Sample.props
      Sample.colV s1 w1 in
  let '(s3, r3, w3) :=
    clickAndRender Sample.localeCompare Sample.stringToNumber Sample.props
      Sample.colV s2 w2 in
  s3 = initialSortState ∧ r3 = 0%nat ∧
  deref r3 w3 = Sample.rows ∧
  deref r1 w1 = sortedView Sample.localeCompare Sample.stringToNumber
                  [Sample.colId; Sample.colV] (sortingOn Sample.colV asc) Sample.rows ∧
  deref r2 w2 = sortedView Sample.localeCompare Sample.stringToNumber
                  [Sample.colId; Sample.colV] (sortingOn Sample.colV desc) Sample.rows.
Proof.
  apply (three_clicks_restore Sample.localeCompare Sample.stringToNumber
           Sample.props Sample.colV initialSortState Sample.w0).
  - reflexivity.
  - simpl. discriminate.
  - simpl. lia.
Defined.

Lemma tbody_loading_witness :
  fst (tbody Sample.localeCompare Sample.stringToNumber Sample.loadingProps
         initialSortState Sample.w0)
  = [loadingRow Sample.loadingProps].
Proof.
  apply (tbody_loading Sample.localeCompare Sample.stringToNumber
           Sample.loadingProps initialSortState Sample.w0).
  reflexivity.
Defined.

(** C1, as stated, fails: with [loading] true the body of the sample
    table has one row, not three, and it is not the skeleton. *)
Lemma tbody_loading_not_skeleton :
  loading Sample.loadingProps = true ∧
  length (fst (tbody Sample.localeCompare Sample.stringToNumber
                 Sample.loadingProps initialSortState Sample.w0)) = 1%nat ∧
  fst (tbody Sample.localeCompare Sample.stringToNumber
         Sample.loadingProps initialSortState Sample.w0)
  ≠ skeletonRows Sample.loadingProps.
Proof. split; [done|]. split; [done|]. discriminate. Qed.


(** ** Selection *)

Lemma deref_snoc_new (l : list (list record)) (xs : list record) (cs : list call) :
  deref (length l) {| arrays := l ++ [xs]; calls := cs |} = xs.
Proof.
  unfold deref. simpl. rewrite lookup_app_r by lia. by rewrite Nat.sub_diag.
Qed.

Lemma deref_snoc_old (l : list (list record)) (xs : list record) (cs : list call)
    (r : ref) (w : world) :
  (r < length l)%nat → arrays w = l →
  deref r {| arrays := l ++ [xs]; calls := cs |} = deref r w.
Proof. intros Hr <-. unfold deref. simpl. by rewrite lookup_app_l. Qed.

Lemma lastSelection_snoc (l : list (list record)) (cs : list call) (r : ref) :
  lastSelection {| arrays := l; calls := cs ++ [RowSelect r] |} = Some r.
Proof. unfold lastSelection. simpl. by rewrite last_snoc. Qed.

Lemma filter_keeps_all {A} (P : A → Prop) `{∀ x, Decision (P x)} (l : list A) :
  Forall P l → filter P l = l.
Proof.
  induction 1 as [|x l Hx _ IH]; [done|].
  rewrite filter_cons_True by done. by rewrite IH.
Qed.

(** C8. With [onRowSelect] supplied, in any sort state (and after the
    view was rendered in it), checking the header checkbox calls
    [onRowSelect] with a new array, not [data] itself, holding the
    elements of [data] in their input order, so with the same length, and
    [data] is left as it was; unchecking it calls [onRowSelect] with a
    new empty array. *)
Theorem handleSelectAll_emits (localeCompare : string → string → Z)
    (stringToNumber : string → number)
    (p : DataTableProps) (s : SortState) (w : world) :
  onRowSelect p = true →
  (data p < length (arrays w))%nat →
  let w1 := snd (sortedData localeCompare stringToNumber p s w) in
  let wc := snd (handleSelectAll p true w1) in
  let wu := snd (handleSelectAll p false w1) in
  (∃ copy, calls wc = calls w1 ++ [RowSelect copy] ∧
           copy ≠ data p ∧
           deref copy wc = deref (data p) w ∧
           length (deref copy wc) = length (deref (data p) w) ∧
           deref (data p) wc = deref (data p) w) ∧
  (∃ none, calls wu = calls w1 ++ [RowSelect none] ∧
           deref none wu = []).
Proof.
  intros Hon Hdata.
  destruct (sortedData_run localeCompare stringToNumber p s w)
    as (r & w1 & E & _ & Hframe & Hlen & _ & _).
  rewrite E. simpl. unfold handleSelectAll. rewrite Hon. simpl.
  split.
  - exists (length (arrays w1)). simpl.
    assert (Hcopy : deref (length (arrays w1))
              {| arrays := arrays w1 ++ [deref (data p) w1];
                 calls := calls w1 ++ [RowSelect (length (arrays w1))] |}
            = deref (data p) w).
    { rewrite deref_snoc_new. by apply Hframe. }
    split; [done|]. split; [lia|]. split; [done|]. split; [by rewrite Hcopy|].
    rewrite (deref_snoc_old _ _ _ _ w1) by (done || lia). by apply Hframe.
  - exists (length (arrays w1)). simpl. split; [done|].
    apply deref_snoc_new.
Qed.

Lemma handleSelectAll_emits_witness :
  ∃ copy, calls (snd (handleSelectAll Sample.props true Sample.w0))
          = [RowSelect copy] ∧
          deref copy (snd (handleSelectAll Sample.props true Sample.w0))
          = Sample.rows.
Proof.
  assert (Hdata : (data Sample.props < length (arrays Sample.w0))%nat)
    by (simpl; lia).
  destruct (proj1 (handleSelectAll_emits Sample.localeCompare
                     Sample.stringToNumber Sample.props initialSortState
                     Sample.w0 eq_refl Hdata))
    as (copy & Hcalls & _ & Hcopy & _).
  exists copy. split; [exact Hcalls | exact Hcopy].
Defined.

(** Without the callback the two handlers do nothing. *)
Lemma handlers_without_callback (p : DataTableProps) (r : record)
    (checked : bool) (w : world) :
  onRowSelect p = false →
  handleSelectAll p checked w = (tt, w) ∧ handleRowSelect p r checked w = (tt, w).
Proof.
  intros Hoff. unfold handleSelectAll, handleRowSelect. by rewrite Hoff.
Qed.





(** ** The sort *)

Section sort_facts.
Context {A : Type} (compareFn : A → A → Z).

Lemma sort_insert_perm (x : A) (l : list A) :
  sort_insert compareFn x l ≡ₚ x :: l.
Proof.
  induction l as [|y l IH]; simpl; [done|].
  destruct (compareFn x y <? 0); [done|].
  rewrite IH. apply Permutation_swap.
Qed.

Lemma sort_fold_perm (l acc : list A) :
  fold_left (λ acc x, sort_insert compareFn x acc) l acc ≡ₚ acc ++ l.
Proof.
  revert acc. induction l as [|x l IH]; intros acc; simpl.
  - by rewrite app_nil_r.
  - rewrite IH, sort_insert_perm. simpl. apply Permutation_middle.
Qed.

(** The sort rearranges the elements and neither drops nor adds one. *)
Lemma sort_list_perm (l : list A) : sort_list compareFn l ≡ₚ l.
Proof. unfold sort_list. by rewrite sort_fold_perm. Qed.

Lemma sort_list_length (l : list A) : length (sort_list compareFn l) = length l.
Proof. by rewrite sort_list_perm. Qed.

Lemma sort_insert_split_by (P : A → bool) (x : A) (l : list A) :
  (∀ a b, P a = true → P b = false → compareFn a b < 0) →
  (∀ a b, P a = false → P b = true → ¬ compareFn a b < 0) →
  split_by P l → split_by P (sort_insert compareFn x l).
Proof.
  intros Hlow Hhigh (l1 & l2 & -> & H1 & H2).
  induction H1 as [|y l1 Hy H1 IH]; simpl.
  - destruct (P x) eqn:Hx.
    + exists [x], l2. split; [|by repeat constructor].
      destruct H2 as [|z l2 Hz H2]; simpl; [done|].
      pose proof (Hlow x z Hx Hz). by rewrite (proj2 (Z.ltb_lt _ _)).
    + exists [], (sort_insert compareFn x l2). split; [done|].
      split; [constructor|]. rewrite sort_insert_perm. by constructor.
  - destruct (compareFn x y <? 0) eqn:Hc.
    + destruct (P x) eqn:Hx.
      * exists (x :: y :: l1), l2. by repeat constructor.
      * apply Z.ltb_lt in Hc. by destruct (Hhigh x y Hx Hy).
    + destruct IH as (m1 & m2 & -> & Hm1 & Hm2).
      exists (y :: m1), m2. by repeat constructor.
Qed.

Lemma sort_list_split_by (P : A → bool) (l : list A) :
  (∀ a b, P a = true → P b = false → compareFn a b < 0) →
  (∀ a b, P a = false → P b = true → ¬ compareFn a b < 0) →
  split_by P (sort_list compareFn l).
Proof.
  intros Hlow Hhigh. unfold sort_list.
  assert (H : split_by P []) by (exists [], []; by repeat constructor).
  revert H. generalize (@nil A). induction l as [|x l IH]; intros acc Hacc; simpl.
  - done.
  - apply IH. by apply sort_insert_split_by.
Qed.

End sort_facts.

Lemma sort_list_ext {A} (f g : A → A → Z) (l : list A) :
  (∀ a b, f a b = g a b) → sort_list f l = sort_list g l.
Proof.
  intros Hfg. unfold sort_list. generalize (@nil A).
  induction l as [|x l IH]; intros acc; simpl; [done|].
  rewrite IH. f_equal. clear IH.
  induction acc as [|y acc IHacc]; simpl; [done|].
  by rewrite Hfg, IHacc.
Qed.

Section sort_order.
Context {A : Type} `{EqDecision A}.

(** Sortedness of the result when "compares below" is total and
    transitive on the elements of a list [u]. *)
Lemma sort_insert_sorted (compareFn : A → A → Z) (u : list A) (x : A) (l : list A) :
  (∀ a b, a ∈ u → b ∈ u → a ≠ b → compareFn a b < 0 ∨ compareFn b a < 0) →
  (∀ a b c, a ∈ u → b ∈ u → c ∈ u →
     compareFn a b < 0 → compareFn b c < 0 → compareFn a c < 0) →
  x ∈ u → (∀ a, a ∈ l → a ∈ u) → x ∉ l →
  StronglySorted (λ a b, compareFn a b < 0) l →
  StronglySorted (λ a b, compareFn a b < 0) (sort_insert compareFn x l).
Proof.
  intros Htot Htrans Hx Hl Hnew Hsorted.
  induction Hsorted as [|y l Hsorted IH Hy]; simpl.
  - repeat constructor.
  - destruct (Z.ltb_spec (compareFn x y) 0) as [Hlt|Hge].
    + constructor; [by constructor|].
      constructor; [done|].
      rewrite Forall_forall in Hy |- *. intros z Hz.
      apply (Htrans x y z); [done|set_solver|set_solver|done|by apply Hy].
    + constructor.
      * apply IH; [set_solver|set_solver].
      * rewrite sort_insert_perm. constructor; [|done].
        destruct (Htot x y) as [?|?]; [done|set_solver|set_solver|lia|done].
Qed.

Lemma sort_list_sorted (compareFn : A → A → Z) (l : list A) :
  NoDup l →
  (∀ a b, a ∈ l → b ∈ l → a ≠ b → compareFn a b < 0 ∨ compareFn b a < 0) →
  (∀ a b c, a ∈ l → b ∈ l → c ∈ l →
     compareFn a b < 0 → compareFn b c < 0 → compareFn a c < 0) →
  StronglySorted (λ a b, compareFn a b < 0) (sort_list compareFn l).
Proof.
  intros Hnd Htot Htrans. unfold sort_list.
  assert (H : ∀ k acc,
    NoDup (acc ++ k) → (∀ a, a ∈ acc ++ k → a ∈ l) →
    StronglySorted (λ a b, compareFn a b < 0) acc →
    StronglySorted (λ a b, compareFn a b < 0)
      (fold_left (λ acc x, sort_insert compareFn x acc) k acc)).
  { induction k as [|x k IH]; intros acc Hnd' Hsub Hacc; simpl; [done|].
    apply NoDup_app in Hnd' as (Hnd1 & Hdisj & Hnd2).
    apply NoDup_cons in Hnd2 as [Hxk Hnd2].
    assert (Hperm : sort_insert compareFn x acc ≡ₚ x :: acc)
      by apply sort_insert_perm.
    apply IH.
    - apply NoDup_app. split; [|split; [|done]].
      + rewrite Hperm. apply NoDup_cons. split; [|done].
        intros Hin. apply (Hdisj x Hin). by left.
      + intros a Ha. rewrite Hperm in Ha. intros Hak.
        apply elem_of_cons in Ha as [->|Ha]; [done|].
        apply (Hdisj a Ha). by right.
    - intros a Ha. apply Hsub. rewrite elem_of_app in Ha |- *.
      destruct Ha as [Ha|Ha]; [|right; by right].
      rewrite Hperm in Ha. apply elem_of_cons in Ha as [->|Ha]; [|by left].
      right. by left.
    - apply (sort_insert_sorted compareFn l); [done|done| | | |done].
      + apply Hsub. set_solver.
      + intros a Ha. apply Hsub. set_solver.
      + intros Hin. apply (Hdisj x Hin). by left. }
  apply H; [done|done|constructor].
Qed.

Lemma StronglySorted_reverse (R : relation A) (l : list A) :
  StronglySorted R l → StronglySorted (flip R) (reverse l).
Proof.
  induction 1 as [|x l Hl IH Hx]; [constructor|].
  rewrite reverse_cons. apply StronglySorted_app_2; [|done|repeat constructor].
  intros a b Ha Hb. apply list_elem_of_singleton in Hb as ->.
  rewrite elem_of_reverse in Ha. rewrite Forall_forall in Hx. by apply Hx.
Qed.

Lemma StronglySorted_change (R1 R2 : relation A) (l : list A) :
  NoDup l →
  (∀ a b, a ∈ l → b ∈ l → a ≠ b → R1 a b → R2 a b) →
  StronglySorted R1 l → StronglySorted R2 l.
Proof.
  intros Hnd Himp Hs. induction Hs as [|x l Hs IH Hx]; [constructor|].
  apply NoDup_cons in Hnd as [Hxl Hnd]. constructor.
  - apply IH; [done|]. intros a b Ha Hb. apply Himp; by right.
  - rewrite Forall_forall in Hx |- *. intros y Hy.
    apply Himp; [by left|by right| |by apply Hx].
    intros ->. done.
Qed.

(** From the checks on positions to facts on elements. *)
Lemma pairwise_elements (P : A → A → bool) (l : list A) :
  (∀ a b, P a b = P b a) →
  pairwise P l = true →
  ∀ a b, a ∈ l → b ∈ l → a ≠ b → P a b = true.
Proof.
  intros Hsym. induction l as [|x l IH]; simpl; intros Hp a b Ha Hb Hab.
  - by apply elem_of_nil in Ha.
  - apply andb_true_iff in Hp as [Hx Hp]. rewrite forallb_forall in Hx.
    apply elem_of_cons in Ha as [->|Ha]; apply elem_of_cons in Hb as [->|Hb].
    + done.
    + apply Hx. by apply list_elem_of_In.
    + rewrite Hsym. apply Hx. by apply list_elem_of_In.
    + by apply IH.
Qed.

Lemma pairwise_NoDup (P : A → A → bool) (l : list A) :
  (∀ a, P a a = false) → pairwise P l = true → NoDup l.
Proof.
  intros Hirr. induction l as [|x l IH]; simpl; intros Hp; [constructor|].
  apply andb_true_iff in Hp as [Hx Hp]. rewrite forallb_forall in Hx.
  constructor; [|by apply IH].
  intros Hin. apply list_elem_of_In, Hx in Hin. by rewrite Hirr in Hin.
Qed.

Lemma opposite_signs_sym (compareFn : A → A → Z) (a b : A) :
  opposite_signs compareFn a b = opposite_signs compareFn b a.
Proof.
  unfold opposite_signs.
  destruct (compareFn a b <? 0), (0 <? compareFn b a),
    (0 <? compareFn a b), (compareFn b a <? 0); done.
Qed.

Lemma opposite_signs_irrefl (compareFn : A → A → Z) (a : A) :
  opposite_signs compareFn a a = false.
Proof.
  unfold opposite_signs.
  destruct (Z.ltb_spec (compareFn a a) 0), (Z.ltb_spec 0 (compareFn a a));
    simpl; (done || lia).
Qed.

Lemma opposite_signs_spec (compareFn : A → A → Z) (a b : A) :
  opposite_signs compareFn a b = true →
  (compareFn a b < 0 ∧ 0 < compareFn b a) ∨ (0 < compareFn a b ∧ compareFn b a < 0).
Proof.
  unfold opposite_signs. intros H.
  apply orb_true_iff in H as [H|H]; apply andb_true_iff in H as [H1 H2];
    apply Z.ltb_lt in H1, H2; auto.
Qed.

Lemma transitive_on_spec (compareFn : A → A → Z) (l : list A) :
  transitive_on compareFn l = true →
  ∀ a b c, a ∈ l → b ∈ l → c ∈ l →
    compareFn a b < 0 → compareFn b c < 0 → compareFn a c < 0.
Proof.
  unfold transitive_on. intros H a b c Ha Hb Hc Hab Hbc.
  rewrite forallb_forall in H. apply list_elem_of_In, H in Ha.
  rewrite forallb_forall in Ha. apply list_elem_of_In, Ha in Hb.
  rewrite forallb_forall in Hb. apply list_elem_of_In, Hb in Hc.
  apply Z.ltb_lt in Hab, Hbc. rewrite Hab, Hbc in Hc. simpl in Hc.
  by apply Z.ltb_lt.
Qed.

(** With a comparator that is consistent on the list, sorting with the
    negated comparator gives the reverse of sorting with the
    comparator. *)
Lemma sort_list_negated (compareFn : A → A → Z) (l : list A) :
  consistent_on compareFn l = true →
  sort_list (λ a b, - compareFn a b) l = reverse (sort_list compareFn l).
Proof.
  intros Hc. apply andb_true_iff in Hc as [Hpairs Htrans].
  pose proof (pairwise_NoDup _ l (opposite_signs_irrefl compareFn) Hpairs) as Hnd.
  pose proof (pairwise_elements _ l (opposite_signs_sym compareFn) Hpairs) as Hopp.
  pose proof (transitive_on_spec compareFn l Htrans) as Htr.
  assert (Hsigns : ∀ a b, a ∈ l → b ∈ l → a ≠ b →
    (compareFn a b < 0 ∧ 0 < compareFn b a) ∨ (0 < compareFn a b ∧ compareFn b a < 0)).
  { intros a b Ha Hb Hab. by apply opposite_signs_spec, Hopp. }
  assert (Hup : StronglySorted (λ a b, compareFn a b < 0) (sort_list compareFn l)).
  { apply sort_list_sorted; [done| |done].
    intros a b Ha Hb Hab. destruct (Hsigns a b Ha Hb Hab); lia. }
  assert (Hdown : StronglySorted (λ a b, - compareFn a b < 0)
                    (sort_list (λ a b, - compareFn a b) l)).
  { apply sort_list_sorted; [done| |].
    - intros a b Ha Hb Hab. destruct (Hsigns a b Ha Hb Hab); lia.
    - intros a b c Ha Hb Hc' Hab Hbc.
      destruct (decide (a = b)) as [->|Hne1]; [done|].
      destruct (decide (b = c)) as [->|Hne2]; [done|].
      destruct (decide (a = c)) as [->|Hne3].
      { destruct (Hsigns c b Ha Hb Hne1); lia. }
      pose proof (Htr c b a Hc' Hb Ha) as Hcba.
      destruct (Hsigns a b Ha Hb Hne1), (Hsigns b c Hb Hc' Hne2),
        (Hsigns a c Ha Hc' Hne3); lia. }
  apply (StronglySorted_unique_strong (flip (λ a b, compareFn a b < 0))).
  - intros a b Ha Hb Hab Hba. unfold flip in *.
    destruct (decide (a = b)) as [|Hne]; [done|].
    rewrite sort_list_perm in Ha. rewrite elem_of_reverse, sort_list_perm in Hb.
    destruct (Hsigns a b Ha Hb Hne); lia.
  - apply (StronglySorted_change (λ a b, - compareFn a b < 0)); [| |done].
    + by rewrite sort_list_perm.
    + intros a b Ha Hb Hab Hlt. unfold flip.
      rewrite sort_list_perm in Ha, Hb.
      destruct (Hsigns a b Ha Hb Hab); lia.
  - by apply StronglySorted_reverse.
  - by rewrite reverse_Permutation, !sort_list_perm.
Qed.

End sort_order.

(** ** The comparator *)

Section comparator_facts.
Variable localeCompare : string → string → Z.
Variable stringToNumber : string → number.

Local Abbreviation comparator' := (comparator localeCompare stringToNumber).
Local Abbreviation of_values := (comparator_of_values localeCompare stringToNumber).

(** The comparator looks at the two records through the values of the
    column only. *)
Lemma comparator_values (column : Column) (k : option string) (o : SortOrder)
    (a b : record) :
  comparator' column {| skey := k; order := Some o |} a b
  = of_values o (get a (dataIndex column)) (get b (dataIndex column)).
Proof.
  unfold comparator, comparator_of_values. simpl.
  destruct (strict_eq _ _); [by destruct o|].
  by destruct o.
Qed.

Lemma comparator_desc_negated (column : Column) (a b : record) :
  comparator' column (sortingOn column desc) a b
  = - comparator' column (sortingOn column asc) a b.
Proof. unfold sortingOn. by rewrite !comparator_values. Qed.

(** A nullish value against a defined one. *)
Lemma of_values_nullish (x y : value) :
  nullish x = true → nullish y = false →
  of_values asc x y = -1 ∧ of_values asc y x = 1 ∧
  of_values desc x y = 1 ∧ of_values desc y x = -1.
Proof.
  intros Hx Hy. unfold comparator_of_values. rewrite Hx, Hy.
  assert (strict_eq x y = false) as -> by (by destruct x, y as [| | |[]|]).
  assert (strict_eq y x = false) as -> by (by destruct x, y as [| | |[]|]).
  done.
Qed.

(** The cases as the specification words them give the comparator's
    result on every pair of values but two different nullish ones. *)
Lemma as_specified_agrees (o : SortOrder) (x y : value) :
  nullish x && nullish y && negb (strict_eq x y) = false →
  comparator_as_specified localeCompare stringToNumber o x y = of_values o x y.
Proof.
  unfold comparator_as_specified, comparator_of_values.
  destruct (strict_eq x y); [done|].
  by destruct (nullish x), (nullish y).
Qed.

(** C3, as the code has it.  The comparator gives 0 when the two column
    values are equal ([===]); otherwise -1 when the left value is nullish,
    whatever the right value is; otherwise +1 when the right value is
    nullish; otherwise the locale comparison when both are strings;
    otherwise -1 when [a < b] and +1 when not; the result is negated for
    the descending order.  A nullish value compares below every defined
    value, so in the sorted rows those with a nullish value come first,
    before all rows with a defined value, in ascending order, and last in
    descending order.  Apart from two different nullish values these are
    the cases as they were stated. *)
Theorem comparator_cases (column : Column) :
  (∀ k o a b,
     comparator' column {| skey := k; order := Some o |} a b
     = of_values o (get a (dataIndex column)) (get b (dataIndex column))) ∧
  (∀ o x y, nullish x && nullish y && negb (strict_eq x y) = false →
     comparator_as_specified localeCompare stringToNumber o x y = of_values o x y) ∧
  (∀ x y, nullish x = true → nullish y = false →
     of_values asc x y = -1 ∧ of_values asc y x = 1 ∧
     of_values desc x y = 1 ∧ of_values desc y x = -1) ∧
  (∀ xs, split_by (λ r, nullish (get r (dataIndex column)))
           (sort_list (comparator' column (sortingOn column asc)) xs)) ∧
  (∀ xs, split_by (λ r, negb (nullish (get r (dataIndex column))))
           (sort_list (comparator' column (sortingOn column desc)) xs)).
Proof.
  split; [apply comparator_values|]. split; [apply as_specified_agrees|].
  split; [apply of_values_nullish|].
  split; intros xs; apply sort_list_split_by; intros a b Ha Hb;
    unfold sortingOn; rewrite comparator_values.
  - destruct (of_values_nullish _ _ Ha Hb) as (-> & _). lia.
  - destruct (of_values_nullish _ _ Hb Ha) as (_ & -> & _). lia.
  - apply negb_true_iff in Ha. apply negb_false_iff in Hb.
    destruct (of_values_nullish _ _ Hb Ha) as (_ & _ & _ & ->). lia.
  - apply negb_false_iff in Ha. apply negb_true_iff in Hb.
    destruct (of_values_nullish _ _ Ha Hb) as (_ & _ & -> & _). lia.
Qed.

(** The same on the view the table shows, for a column the sort state
    selects: a non-empty key that no earlier column has. *)
Lemma sortedView_descending_reverses (cols : list Column) (column : Column)
    (xs : list record) :
  key column ≠ EmptyString →
  find (λ col, bool_decide (Some (key col) = Some (key column))) cols = Some column →
  consistent_on (comparator' column (sortingOn column asc)) xs = true →
  sortedView localeCompare stringToNumber cols (sortingOn column desc) xs
  = reverse (sortedView localeCompare stringToNumber cols (sortingOn column asc) xs).
Proof.
  intros Hk Hfind Hc. unfold sortedView. simpl.
  rewrite bool_decide_eq_false_2 by done. simpl. rewrite Hfind.
  rewrite <- (sort_list_negated _ _ Hc).
  apply sort_list_ext. intros a b. apply comparator_desc_negated.
Qed.

(** C6, as the code has it.  When the ascending comparator of a column is
    consistent on the data (on two different positions it is not 0 and
    gives opposite signs in the two argument orders, and it is
    transitive), sorting descending gives the exact reverse of sorting
    ascending; and so for the two views the table shows, when the column
    is the one its key selects. *)
Theorem descending_reverses_ascending (column : Column) (xs : list record) :
  consistent_on (comparator' column (sortingOn column asc)) xs = true →
  sort_list (comparator' column (sortingOn column desc)) xs
  = reverse (sort_list (comparator' column (sortingOn column asc)) xs) ∧
  ∀ cols : list Column,
    key column ≠ EmptyString →
    find (λ col, bool_decide (Some (key col) = Some (key column))) cols
    = Some column →
    sortedView localeCompare stringToNumber cols (sortingOn column desc) xs
    = reverse (sortedView localeCompare stringToNumber cols
                 (sortingOn column asc) xs).
Proof.
  intros Hc. split.
  - rewrite <- (sort_list_negated _ _ Hc).
    apply sort_list_ext. intros a b. apply comparator_desc_negated.
  - intros cols Hk Hfind. by apply sortedView_descending_reverses.
Qed.

End comparator_facts.

Lemma pairwise_impl {A} (P Q : A → A → bool) (l : list A) :
  (∀ a b, a ∈ l → b ∈ l → P a b = true → Q a b = true) →
  pairwise P l = true → pairwise Q l = true.
Proof.
  induction l as [|x l IH]; simpl; intros Himp Hp; [done|].
  apply andb_true_iff in Hp as [Hx Hp]. apply andb_true_iff. split.
  - rewrite forallb_forall in Hx |- *. intros y Hy.
    apply Himp; [by left| right; by apply list_elem_of_In | by apply Hx].
  - apply IH; [|done]. intros a b Ha Hb. apply Himp; by right.
Qed.

Section numeric_columns.
Variable localeCompare : string → string → Z.
Variable stringToNumber : string → number.

Local Abbreviation comparator' := (comparator localeCompare stringToNumber).

Lemma comparator_numbers (column : Column) (a b : record) (x y : Z) :
  get a (dataIndex column) = VNum (Fin x) →
  get b (dataIndex column) = VNum (Fin y) →
  comparator' column (sortingOn column asc) a b
  = if bool_decide (x = y) then 0 else if x <? y then -1 else 1.
Proof.
  intros Ha Hb. unfold sortingOn. rewrite comparator_values, Ha, Hb.
  unfold comparator_of_values. simpl. by case_bool_decide.
Qed.

(** A column of pairwise different integers is one on which the
    comparator is consistent. *)
Lemma numeric_column_consistent (column : Column) (xs : list record) :
  Forall (λ r, ∃ z, get r (dataIndex column) = VNum (Fin z)) xs →
  distinct_values column xs = true →
  consistent_on (comparator' column (sortingOn column asc)) xs = true.
Proof.
  intros Hnum Hdist. rewrite Forall_forall in Hnum.
  unfold consistent_on. apply andb_true_iff. split.
  - revert Hdist. unfold distinct_values. apply pairwise_impl.
    intros a b Ha Hb Hab.
    destruct (Hnum a Ha) as [x Hx], (Hnum b Hb) as [y Hy].
    unfold opposite_signs.
    rewrite (comparator_numbers column a b x y Hx Hy),
      (comparator_numbers column b a y x Hy Hx).
    rewrite Hx, Hy in Hab. simpl in Hab.
    repeat case_bool_decide; simpl in *; try done; try lia.
    destruct (Z.ltb_spec x y), (Z.ltb_spec y x); simpl; (done || lia).
  - unfold transitive_on. rewrite forallb_forall. intros a Ha%list_elem_of_In.
    rewrite forallb_forall. intros b Hb%list_elem_of_In.
    rewrite forallb_forall. intros c Hc%list_elem_of_In.
    destruct (Hnum a Ha) as [x Hx], (Hnum b Hb) as [y Hy], (Hnum c Hc) as [z Hz].
    rewrite (comparator_numbers column a b x y Hx Hy),
      (comparator_numbers column b c y z Hy Hz),
      (comparator_numbers column a c x z Hx Hz).
    destruct (Z.ltb_spec x y), (Z.ltb_spec y z), (Z.ltb_spec x z);
      repeat case_bool_decide; simpl; (done || lia).
Qed.

End numeric_columns.

Lemma comparator_cases_witness :
  comparator_of_values Sample.localeCompare Sample.stringToNumber asc
    VNull (VNum (Fin 1)) = -1 ∧
  comparator_of_values Sample.localeCompare Sample.stringToNumber asc
    (VNum (Fin 1)) VNull = 1 ∧
  comparator_of_values Sample.localeCompare Sample.stringToNumber desc
    VNull (VNum (Fin 1)) = 1 ∧
  comparator_of_values Sample.localeCompare Sample.stringToNumber desc
    (VNum (Fin 1)) VNull = -1.
Proof.
  apply (proj1 (proj2 (proj2 (comparator_cases Sample.localeCompare
                                Sample.stringToNumber Sample.colV)))
           VNull (VNum (Fin 1)));
    reflexivity.
Defined.

(** C3, as stated, fails on null against undefined: the two values are
    different and neither is defined, so the stated cases end in the
    last one, [null < undefined] is false and the result would be +1
    (and -1 descending); the code returns -1 (and +1 descending). *)
Lemma comparator_null_against_undefined :
  comparator Sample.localeCompare Sample.stringToNumber Sample.colV
    (sortingOn Sample.colV asc) (Sample.row 1 VNull) (Sample.row 2 VUndefined) = -1 ∧
  comparator_as_specified Sample.localeCompare Sample.stringToNumber asc
    (get (Sample.row 1 VNull) "v") (get (Sample.row 2 VUndefined) "v") = 1 ∧
  comparator Sample.localeCompare Sample.stringToNumber Sample.colV
    (sortingOn Sample.colV desc) (Sample.row 1 VNull) (Sample.row 2 VUndefined) = 1 ∧
  comparator_as_specified Sample.localeCompare Sample.stringToNumber desc
    (get (Sample.row 1 VNull) "v") (get (Sample.row 2 VUndefined) "v") = -1.
Proof. by vm_compute. Qed.

Lemma descending_reverses_ascending_witness :
  sort_list (comparator Sample.localeCompare Sample.stringToNumber Sample.colV
               (sortingOn Sample.colV desc)) Sample.rows
  = reverse (sort_list (comparator Sample.localeCompare Sample.stringToNumber
                          Sample.colV (sortingOn Sample.colV asc)) Sample.rows) ∧
  sortedView Sample.localeCompare Sample.stringToNumber
    [Sample.colId; Sample.colV] (sortingOn Sample.colV desc) Sample.rows
  = reverse (sortedView Sample.localeCompare Sample.stringToNumber
               [Sample.colId; Sample.colV] (sortingOn Sample.colV asc) Sample.rows).
Proof.
  assert (Hc : consistent_on
                 (comparator Sample.localeCompare Sample.stringToNumber
                    Sample.colV (sortingOn Sample.colV asc)) Sample.rows = true)
    by (by vm_compute).
  destruct (descending_reverses_ascending Sample.localeCompare
              Sample.stringToNumber Sample.colV Sample.rows Hc) as [Hsort Hview].
  split; [exact Hsort|].
  apply Hview; [discriminate | reflexivity].
Defined.

(** C6, as stated, fails when the column holds NaN: the values 1, 3,
    NaN, 4, 2 are pairwise different and the comparator is 0 on no two of
    them, yet the descending result is not the reverse of the ascending
    one.  NaN compares above every number and every number compares
    above NaN. *)
Lemma descending_not_reverse_with_NaN :
  sortable Sample.colV = true ∧
  distinct_values Sample.colV Sample.rowsNaN = true ∧
  no_ties (comparator Sample.localeCompare Sample.stringToNumber Sample.colV
             (sortingOn Sample.colV asc)) Sample.rowsNaN = true ∧
  map (λ r, get r "v")
    (sort_list (comparator Sample.localeCompare Sample.stringToNumber Sample.colV
                  (sortingOn Sample.colV asc)) Sample.rowsNaN)
  = [VNum (Fin 1); VNum (Fin 2); VNum (Fin 3); VNum NaN; VNum (Fin 4)] ∧
  map (λ r, get r "v")
    (sort_list (comparator Sample.localeCompare Sample.stringToNumber Sample.colV
                  (sortingOn Sample.colV desc)) Sample.rowsNaN)
  = [VNum (Fin 4); VNum (Fin 2); VNum NaN; VNum (Fin 3); VNum (Fin 1)] ∧
  sort_list (comparator Sample.localeCompare Sample.stringToNumber Sample.colV
               (sortingOn Sample.colV desc)) Sample.rowsNaN
  ≠ reverse (sort_list (comparator Sample.localeCompare Sample.stringToNumber
                          Sample.colV (sortingOn Sample.colV asc)) Sample.rowsNaN) ∧
  sortedView Sample.localeCompare Sample.stringToNumber
    [Sample.colId; Sample.colV] (sortingOn Sample.colV desc) Sample.rowsNaN
  ≠ reverse (sortedView Sample.localeCompare Sample.stringToNumber
               [Sample.colId; Sample.colV] (sortingOn Sample.colV asc)
               Sample.rowsNaN).
Proof.
  split; [done|].
  split; [by vm_compute|]. split; [by vm_compute|].
  split; [by vm_compute|]. split; [by vm_compute|].
  split; intros H; apply (f_equal (map (λ r, get r "v"))) in H;
    vm_compute in H; discriminate.
Qed.


(** * Further properties of the table *)

(** ** The sorted view *)

(** X1. Whatever the sort state and the columns, the array the body
    shows holds the records of [data], each as often as [data] does: the
    sort drops and adds nothing, and the two have the same length. *)
Theorem sortedData_permutation (localeCompare : string → string → Z)
    (stringToNumber : string → number)
    (p : DataTableProps) (s : SortState) (w : world) :
  let r := fst (sortedData localeCompare stringToNumber p s w) in
  let w' := snd (sortedData localeCompare stringToNumber p s w) in
  deref r w' ≡ₚ deref (data p) w ∧
  length (deref r w') = length (deref (data p) w).
Proof.
  destruct (sortedData_run localeCompare stringToNumber p s w)
    as (r & w' & -> & Hview & _).
  simpl. rewrite Hview.
  assert (Hperm : sortedView localeCompare stringToNumber (columns p) s
                    (deref (data p) w) ≡ₚ deref (data p) w).
  { unfold sortedView. destruct (negb _ || negb _); [done|].
    destruct (find _ _); [apply sort_list_perm|done]. }
  split; [done|]. by rewrite Hperm.
Qed.

Lemma filter_drops_all {A} (P : A → Prop) `{∀ x, Decision (P x)} (l : list A) :
  Forall (λ x, ¬ P x) l → filter P l = [].
Proof.
  induction 1 as [|x l Hx _ IH]; [done|].
  by rewrite filter_cons_False.
Qed.

Section ranked_sort.
Context {A : Type} (compareFn : A → A → Z) (rank : A → Z).

Lemma sort_insert_ranked (x : A) (l : list A) :
  (∀ y, y ∈ l → (compareFn x y < 0 ↔ rank x < rank y)) →
  StronglySorted (λ a b, rank a ≤ rank b) l →
  StronglySorted (λ a b, rank a ≤ rank b) (sort_insert compareFn x l).
Proof.
  intros Hx Hs. induction Hs as [|y l Hs IH Hy]; simpl.
  - repeat constructor.
  - rewrite Forall_forall in Hy.
    destruct (Z.ltb_spec (compareFn x y) 0) as [Hlt|Hge].
    + apply Hx in Hlt; [|by left].
      constructor; [by constructor; [|apply Forall_forall]|].
      apply Forall_forall. intros z Hz.
      apply elem_of_cons in Hz as [->|Hz]; [lia|]. specialize (Hy z Hz). lia.
    + constructor.
      * apply IH. intros z Hz. apply Hx. by right.
      * rewrite sort_insert_perm. constructor; [|by apply Forall_forall].
        destruct (decide (rank x < rank y)) as [Hlt|]; [|lia].
        apply Hx in Hlt; [lia|by left].
Qed.

Lemma sort_insert_stable (v : Z) (x : A) (l : list A) :
  (∀ y, y ∈ l → (compareFn x y < 0 ↔ rank x < rank y)) →
  StronglySorted (λ a b, rank a ≤ rank b) l →
  filter (λ a, rank a = v) (sort_insert compareFn x l)
  = filter (λ a, rank a = v) l ++ filter (λ a, rank a = v) [x].
Proof.
  intros Hx Hs. induction Hs as [|y l Hs IH Hy]; simpl.
  - done.
  - rewrite Forall_forall in Hy.
    destruct (Z.ltb_spec (compareFn x y) 0) as [Hlt|Hge].
    + apply Hx in Hlt; [|by left].
      destruct (decide (rank x = v)) as [Hv|Hv].
      * rewrite (filter_cons_True _ x) by done.
        assert (Hnone : filter (λ a, rank a = v) (y :: l) = []).
        { apply filter_drops_all.
          apply Forall_forall. intros z Hz.
          apply elem_of_cons in Hz as [->|Hz]; [lia|]. specialize (Hy z Hz). lia. }
        rewrite Hnone. simpl. rewrite filter_cons_True by done. done.
      * rewrite (filter_cons_False _ x) by done.
        rewrite (filter_cons_False _ x []) by done. by rewrite filter_nil, app_nil_r.
    + rewrite !(filter_cons _ y). rewrite IH.
      * by destruct (decide (rank y = v)).
      * intros z Hz. apply Hx. by right.
Qed.

Lemma sort_list_ranked (l : list A) :
  (∀ a b, a ∈ l → b ∈ l → (compareFn a b < 0 ↔ rank a < rank b)) →
  StronglySorted (λ a b, rank a ≤ rank b) (sort_list compareFn l) ∧
  ∀ v, filter (λ a, rank a = v) (sort_list compareFn l)
       = filter (λ a, rank a = v) l.
Proof.
  intros Hr. unfold sort_list.
  assert (H : ∀ k acc,
    (∀ a, a ∈ acc ++ k → a ∈ l) →
    StronglySorted (λ a b, rank a ≤ rank b) acc →
    StronglySorted (λ a b, rank a ≤ rank b)
      (fold_left (λ acc x, sort_insert compareFn x acc) k acc) ∧
    ∀ v, filter (λ a, rank a = v)
           (fold_left (λ acc x, sort_insert compareFn x acc) k acc)
         = filter (λ a, rank a = v) acc ++ filter (λ a, rank a = v) k).
  { induction k as [|x k IH]; intros acc Hsub Hacc; simpl.
    - split; [done|]. intros v. by rewrite filter_nil, app_nil_r.
    - assert (Hx : ∀ y, y ∈ acc → (compareFn x y < 0 ↔ rank x < rank y)).
      { intros y Hy. apply Hr; apply Hsub, elem_of_app.
        - right. by left.
        - by left. }
      destruct (IH (sort_insert compareFn x acc)) as [Hs Hf].
      + intros a Ha. apply Hsub. rewrite elem_of_app in Ha |- *.
        destruct Ha as [Ha|Ha]; [|right; by right].
        rewrite sort_insert_perm in Ha.
        apply elem_of_cons in Ha as [->|Ha]; [right; by left|by left].
      + by apply sort_insert_ranked.
      + split; [done|]. intros v. rewrite Hf, sort_insert_stable by done.
        rewrite <- app_assoc. f_equal.
        rewrite (filter_cons _ x k). rewrite (filter_cons _ x []).
        by destruct (decide (rank x = v)). }
  destruct (H l []) as [Hs Hf]; [done|constructor|].
  split; [done|]. intros v. by rewrite Hf.
Qed.

End ranked_sort.

Lemma StronglySorted_weaken {A} (R1 R2 : relation A) (l : list A) :
  (∀ a b, R1 a b → R2 a b) → StronglySorted R1 l → StronglySorted R2 l.
Proof.
  intros Himp. induction 1 as [|x l Hs IH Hx]; constructor; [done|].
  eapply Forall_impl; [exact Hx|]. intros y. apply Himp.
Qed.

Lemma ranked_by_spec {A} (compareFn : A → A → Z) (rank : A → Z) (l : list A) :
  ranked_by compareFn rank l = true →
  ∀ a b, a ∈ l → b ∈ l →
    (compareFn a b < 0 ↔ rank a < rank b) ∧ (0 < compareFn a b ↔ rank b < rank a).
Proof.
  unfold ranked_by. rewrite forallb_forall.
  intros H a b Ha%list_elem_of_In%H Hb%list_elem_of_In.
  rewrite forallb_forall in Ha. apply Ha in Hb.
  apply andb_true_iff in Hb as [H1%Bool.eqb_prop H2%Bool.eqb_prop].
  rewrite <- !Z.ltb_lt. rewrite H1, H2. done.
Qed.

Section ranked_columns.
Variable localeCompare : string → string → Z.
Variable stringToNumber : string → number.

Local Abbreviation comparator' := (comparator localeCompare stringToNumber).

(** X2. When a ranking of the rows describes the ascending comparator of
    a column (negative exactly below, positive exactly above; equal
    ranks allowed), sorting ascending puts the rows in non-decreasing
    order of rank and sorting descending in non-increasing order. *)
Theorem ranked_sort_ordered (column : Column) (rank : record → Z)
    (xs : list record) :
  ranked_by (comparator' column (sortingOn column asc)) rank xs = true →
  StronglySorted (λ a b, rank a ≤ rank b)
    (sort_list (comparator' column (sortingOn column asc)) xs) ∧
  StronglySorted (λ a b, rank b ≤ rank a)
    (sort_list (comparator' column (sortingOn column desc)) xs).
Proof.
  intros Hrank. pose proof (ranked_by_spec _ _ _ Hrank) as Hr. split.
  - apply sort_list_ranked. intros a b Ha Hb. by apply Hr.
  - apply (StronglySorted_weaken (λ a b, - rank a ≤ - rank b)); [intros; lia|].
    apply sort_list_ranked. intros a b Ha Hb.
    rewrite comparator_desc_negated. destruct (Hr a b Ha Hb) as [_ Hpos]. lia.
Qed.

(** X3. Under the same condition the sort is stable in both orders: the
    rows of any one rank stand in the result in the order they have in
    the data. *)
Theorem ranked_sort_stable (column : Column) (rank : record → Z)
    (xs : list record) (v : Z) :
  ranked_by (comparator' column (sortingOn column asc)) rank xs = true →
  filter (λ r, rank r = v) (sort_list (comparator' column (sortingOn column asc)) xs)
  = filter (λ r, rank r = v) xs ∧
  filter (λ r, rank r = v) (sort_list (comparator' column (sortingOn column desc)) xs)
  = filter (λ r, rank r = v) xs.
Proof.
  intros Hrank. pose proof (ranked_by_spec _ _ _ Hrank) as Hr. split.
  - apply sort_list_ranked. intros a b Ha Hb. by apply Hr.
  - assert (Hd : ∀ u, filter (λ r, - rank r = u)
                 (sort_list (comparator' column (sortingOn column desc)) xs)
               = filter (λ r, - rank r = u) xs).
    { apply sort_list_ranked. intros a b Ha Hb.
      rewrite comparator_desc_negated. destruct (Hr a b Ha Hb) as [_ Hpos]. lia. }
    rewrite (list_filter_iff (λ r, rank r = v) (λ r, - rank r = - v)) by (intros; lia).
    rewrite Hd. apply list_filter_iff. intros; lia.
Qed.

(** X4. On a column of integers the comparator is the order of the
    integers (negative exactly when the left value is smaller, positive
    exactly when it is larger), so the values rank the rows, ties
    included. *)
Theorem integer_column_ranked (column : Column) (xs : list record) :
  integer_column column xs = true →
  ranked_by (comparator' column (sortingOn column asc)) (integer_of column) xs
  = true.
Proof.
  unfold integer_column, ranked_by. rewrite !forallb_forall.
  intros Hint a Ha. rewrite forallb_forall. intros b Hb.
  apply Hint in Ha, Hb. unfold integer_of.
  destruct (get a (dataIndex column)) as [| | |[x|]|] eqn:Hx; try done.
  destruct (get b (dataIndex column)) as [| | |[y|]|] eqn:Hy; try done.
  rewrite (comparator_numbers _ _ column a b x y Hx Hy).
  destruct (Z.ltb_spec x y), (Z.ltb_spec y x);
    case_bool_decide; simpl; (done || lia).
Qed.

End ranked_columns.

(** ** The sort state *)

(** X5. Header clicks on one column run in a cycle of three: after a
    first click, three more clicks on the same column give the state the
    first click gave. *)
Theorem handleSort_cycle (column : Column) (s : SortState) :
  handleSort column (handleSort column (handleSort column (handleSort column s)))
  = handleSort column s.
Proof.
  unfold handleSort. destruct (sortable column); simpl; [|done].
  repeat (case_bool_decide; simpl in *; simplify_eq; try done).
Qed.

(** ** The rendered table *)

Lemma bind_run {A B} (m : M A) (f : A → M B) (w : world) :
  (m ≫= f) w = f (fst (m w)) (snd (m w)).
Proof. unfold mbind, M_bind. by destruct (m w). Qed.

Lemma foldr_cellSpan_ones (cs : list vnode) :
  Forall (λ c, cellSpan c = 1) cs →
  foldr (λ cell acc, cellSpan cell + acc) 0 cs = Z.of_nat (length cs).
Proof.
  induction 1 as [|c cs Hc _ IH]; simpl; [done|]. rewrite Hc, IH. lia.
Qed.

Lemma dataRow_run (p : DataTableProps) (r : record) (index : nat) (w : world) :
  snd (dataRow p r index w) = w ∧
  attrOf "key" (attrsOf (fst (dataRow p r index w)))
  = Some (AKey (getRowKey p r index)) ∧
  rowSpan (fst (dataRow p r index w))
  = (if selectable p then 1 else 0) + Z.of_nat (length (columns p)).
Proof.
  unfold dataRow, isRowSelected, mbind, M_bind, read, mret, M_ret. simpl.
  split; [done|]. split; [done|].
  unfold rowSpan. simpl. rewrite foldr_app.
  assert (Hcols : foldr (λ cell acc, cellSpan cell + acc) 0
                    (map (dataCell r index) (columns p))
                  = Z.of_nat (length (columns p))).
  { rewrite foldr_cellSpan_ones; [by rewrite length_map|].
    apply Forall_forall. intros c Hc.
    apply list_elem_of_fmap in Hc as (col & -> & _). done. }
  rewrite Hcols. by destruct (selectable p).
Qed.

Lemma dataRows_run (p : DataTableProps) (rows : list record) (index : nat)
    (w : world) :
  snd (dataRows p index rows w) = w ∧
  map (λ n, attrOf "key" (attrsOf n)) (fst (dataRows p index rows w))
  = imap (λ j r, Some (AKey (getRowKey p r (index + j)))) rows ∧
  Forall (λ row, rowSpan row
                 = (if selectable p then 1 else 0) + Z.of_nat (length (columns p)))
         (fst (dataRows p index rows w)).
Proof.
  revert index. induction rows as [|r rows IH]; intros index; simpl.
  - done.
  - rewrite bind_run.
    destruct (dataRow_run p r index w) as (Hw & Hk & Hspan).
    rewrite Hw, bind_run.
    destruct (IH (S index)) as (Hw' & Hk' & Hspan').
    simpl. split; [done|]. split.
    + rewrite Nat.add_0_r. f_equal. rewrite Hk'.
      apply imap_ext. intros j x _. simpl. do 3 f_equal. lia.
    + by constructor.
Qed.

Section rendered.
Variable localeCompare : string → string → Z.
Variable stringToNumber : string → number.

Local Abbreviation sortedData' := (sortedData localeCompare stringToNumber).
Local Abbreviation sortedView' := (sortedView localeCompare stringToNumber).
Local Abbreviation tbody' := (tbody localeCompare stringToNumber).
Local Abbreviation DataTable' := (DataTable localeCompare stringToNumber).

Lemma sortedView_nil (cols : list Column) (s : SortState) :
  sortedView' cols s [] = [].
Proof.
  unfold sortedView. destruct (negb _ || negb _); [done|].
  by destruct (find _ _).
Qed.

Lemma sortedView_length (cols : list Column) (s : SortState) (xs : list record) :
  length (sortedView' cols s xs) = length xs.
Proof.
  unfold sortedView. destruct (negb _ || negb _); [done|].
  destruct (find _ _); [apply sort_list_length|done].
Qed.

(** The body while not loading, in terms of the view. *)
Lemma tbody_not_loading (p : DataTableProps) (s : SortState) (w : world) :
  loading p = false →
  tbody' p s w
  = (if bool_decide (length (deref (data p) w) = 0%nat) then [emptyRow p]
     else fst (dataRows p 0 (sortedView' (columns p) s (deref (data p) w))
                 (snd (sortedData' p s w))),
     snd (sortedData' p s w)).
Proof.
  intros Hl. unfold tbody. rewrite bind_run, Hl.
  destruct (sortedData_run localeCompare stringToNumber p s w)
    as (r & w' & E & Hview & _).
  rewrite E. simpl. rewrite bind_run. unfold read. simpl.
  rewrite Hview, sortedView_length. case_bool_decide; [done|].
  destruct (dataRows_run p (sortedView' (columns p) s (deref (data p) w)) 0 w')
    as (Hw & _).
  rewrite <- Hw at 3. by destruct (dataRows _ _ _ _).
Qed.

(** X6. When the table is not loading and [data] is empty, the body is
    the single row with [emptyText], in every sort state. *)
Theorem tbody_empty (p : DataTableProps) (s : SortState) (w : world) :
  loading p = false →
  deref (data p) w = [] →
  fst (tbody' p s w) = [emptyRow p].
Proof.
  intros Hl Hd. rewrite tbody_not_loading by done. by rewrite Hd.
Qed.

(** X7. When the table is not loading and [data] is not empty, the body
    has one row per record of [data]; the rows follow the sorted view and
    the React key of the row at position [j] is [getRowKey] of its record
    with the index [j]. *)
Theorem tbody_rows (p : DataTableProps) (s : SortState) (w : world) :
  loading p = false →
  deref (data p) w ≠ [] →
  length (fst (tbody' p s w)) = length (deref (data p) w) ∧
  map (λ row, attrOf "key" (attrsOf row)) (fst (tbody' p s w))
  = imap (λ j r, Some (AKey (getRowKey p r j)))
         (sortedView' (columns p) s (deref (data p) w)).
Proof.
  intros Hl Hd. rewrite tbody_not_loading by done. simpl.
  rewrite bool_decide_eq_false_2 by (by destruct (deref (data p) w)).
  destruct (dataRows_run p (sortedView' (columns p) s (deref (data p) w)) 0
              (snd (sortedData' p s w))) as (_ & Hk & _).
  split; [|done].
  apply (f_equal length) in Hk.
  by rewrite length_map, length_imap, sortedView_length in Hk.
Qed.

Lemma thead_run (p : DataTableProps) (s : SortState) (w : world) :
  snd (thead p s w) = w ∧
  length (headerCells (fst (thead p s w)))
  = ((if selectable p then 1 else 0) + length (columns p))%nat.
Proof.
  unfold thead, isAllSelected, isIndeterminate.
  rewrite !bind_run. simpl. split; [done|].
  unfold headerCells. simpl. rewrite length_app, length_map.
  by destruct (selectable p).
Qed.

(** X8. The table is rectangular: in every state of the body (loading,
    empty, populated) each body row takes as many columns as the header
    row has cells, one per column and one more when the table is
    selectable. *)
Theorem rows_span_header (p : DataTableProps) (s : SortState) (w w1 : world) :
  length (headerCells (fst (thead p s w1)))
  = ((if selectable p then 1 else 0) + length (columns p))%nat ∧
  Forall (λ row, rowSpan row
                 = Z.of_nat (length (headerCells (fst (thead p s w1)))))
         (fst (tbody' p s w)).
Proof.
  destruct (thead_run p s w1) as [_ Hh]. split; [done|]. rewrite Hh.
  assert (Hload : rowSpan (loadingRow p)
    = Z.of_nat ((if selectable p then 1 else 0) + length (columns p))).
  { unfold rowSpan, cellSpan. simpl. destruct (selectable p); lia. }
  assert (Hempty : rowSpan (emptyRow p)
    = Z.of_nat ((if selectable p then 1 else 0) + length (columns p))).
  { unfold rowSpan, cellSpan. simpl. destruct (selectable p); lia. }
  destruct (loading p) eqn:Hl.
  - unfold tbody. rewrite bind_run, Hl. simpl.
    constructor; [done|constructor].
  - rewrite tbody_not_loading by done. simpl. case_bool_decide.
    + constructor; [done|constructor].
    + destruct (dataRows_run p (sortedView' (columns p) s (deref (data p) w)) 0
                  (snd (sortedData' p s w))) as (_ & _ & Hspan).
      eapply Forall_impl; [exact Hspan|]. simpl. intros row ->.
      destruct (selectable p); lia.
Qed.

Lemma sortedData_store (p : DataTableProps) (s : SortState) (w : world) :
  calls (snd (sortedData' p s w)) = calls w ∧
  ∃ extra, arrays (snd (sortedData' p s w)) = arrays w ++ extra ∧
           (length extra ≤ 1)%nat.
Proof.
  unfold sortedData.
  destruct (negb _ || negb _).
  { simpl. split; [done|]. exists []. split; [by rewrite app_nil_r | simpl; lia]. }
  destruct (find _ _).
  2: { simpl. split; [done|]. exists []. split; [by rewrite app_nil_r | simpl; lia]. }
  rewrite bind_run. simpl. split; [done|].
  eexists [_]. split; [|simpl; lia].
  rewrite insert_app_r_alt by lia. by rewrite Nat.sub_diag.
Qed.


End rendered.

(** The lit arrows of one icon: one when the column is sortable and
    active with an order, none otherwise. *)
Lemma litArrows_icon (s : SortState) (column : Column) :
  litArrows (renderSortIcon s column)
  = if sortable column && bool_decide (skey s = Some (key column))
       && truthy_order (order s)
    then 1%nat else 0%nat.
Proof.
  unfold renderSortIcon. destruct (sortable column); simpl; [|done].
  case_bool_decide; simpl; [|done].
  destruct (order s) as [[]|]; done.
Qed.

(** X10. With column keys that are pairwise different, at most one arrow
    is lit in the whole header row, in every sort state. *)
Theorem one_lit_arrow (s : SortState) (cols : list Column) :
  NoDup (map key cols) →
  (sum_list (map (λ column, litArrows (renderSortIcon s column)) cols) ≤ 1)%nat.
Proof.
  induction cols as [|c cols IH]; simpl; intros Hnd; [lia|].
  apply NoDup_cons in Hnd as [Hc Hnd]. specialize (IH Hnd).
  rewrite litArrows_icon.
  destruct (sortable c && bool_decide (skey s = Some (key c))
            && truthy_order (order s)) eqn:Hact; [|lia].
  apply andb_true_iff in Hact as [Hact _].
  apply andb_true_iff in Hact as [_ Hk%bool_decide_eq_true].
  assert (Hz : sum_list (map (λ column, litArrows (renderSortIcon s column)) cols)
               = 0%nat).
  { clear IH. induction cols as [|d cols IHc]; simpl; [done|].
    rewrite litArrows_icon.
    assert (key d ≠ key c).
    { intros Heq. apply Hc. rewrite <- Heq. simpl. by left. }
    rewrite (bool_decide_eq_false_2 (skey s = Some (key d))) by congruence.
    rewrite andb_false_r. simpl. apply IHc.
    - intros Hin. apply Hc. simpl. by right.
    - by apply NoDup_cons in Hnd as [_ ?]. }
  rewrite Hz. lia.
Qed.

(** ** Selection by key *)

Lemma strict_eq_true (a b : value) : strict_eq a b = true → a = b.
Proof.
  destruct a as [| |x|[x|]|x], b as [| |y|[y|]|y]; simpl; try done;
    intros H%bool_decide_eq_true; by subst.
Qed.

(** X11. Selection goes by key, not by record: two records whose keys
    are equal ([===]) are selected or not together, and unchecking either
    one emits the same selection. *)
Theorem same_key_same_selection (p : DataTableProps) (r1 r2 : record) (w : world) :
  strict_eq (getRowKey p r1 0) (getRowKey p r2 0) = true →
  isRowSelected p r1 w = isRowSelected p r2 w ∧
  handleRowSelect p r1 false w = handleRowSelect p r2 false w.
Proof.
  intros Hk%strict_eq_true. unfold isRowSelected, handleRowSelect.
  by rewrite Hk.
Qed.

(** X12. With a field name as [rowKey], every record without that field
    has the key 0, the index the handlers pass: once one such record (or
    a record whose key is the number 0) is in the selection, every record
    without the field counts as selected. *)
Theorem keyless_rows_collide (p : DataTableProps) (k : string)
    (r1 r2 : record) (w : world) :
  rowKey p = KeyField k →
  nullish (get r1 k) = true →
  nullish (get r2 k) = true ∨ get r2 k = VNum (Fin 0) →
  r2 ∈ deref (selectedRows p) w →
  getRowKey p r1 0 = VNum (Fin 0) ∧
  fst (isRowSelected p r1 w) = true.
Proof.
  intros Hrk H1 H2 Hin.
  assert (K1 : getRowKey p r1 0 = VNum (Fin 0)).
  { unfold getRowKey, coalesce. by rewrite Hrk, H1. }
  assert (K2 : getRowKey p r2 0 = VNum (Fin 0)).
  { unfold getRowKey, coalesce. rewrite Hrk.
    destruct H2 as [H2| ->]; [by rewrite H2|done]. }
  split; [done|].
  unfold isRowSelected. rewrite ?bind_run; simpl.
  apply existsb_exists. exists r2. split; [by apply list_elem_of_In|].
  by rewrite K1, K2.
Qed.

Lemma existsb_filter_false {A} (f : A → bool) (l : list A) :
  existsb f (filter (λ x, f x = false) l) = false.
Proof.
  induction l as [|x l IH]; [done|].
  rewrite filter_cons. destruct (decide (f x = false)) as [Hx|Hx]; [|done].
  simpl. by rewrite Hx.
Qed.

(** X13. After a row is unchecked and the host has fed the emitted
    selection back, the row is not selected, whatever the selection held
    before (also several rows with its key); the emitted selection is a
    sublist of the previous one. *)
Theorem unchecked_row_not_selected (p : DataTableProps) (r : record) (w : world) :
  onRowSelect p = true →
  let w1 := snd (handleRowSelect p r false w) in
  ∃ s1, lastSelection w1 = Some s1 ∧
        sublist (deref s1 w1) (deref (selectedRows p) w) ∧
        fst (isRowSelected (withSelectedRows p s1) r w1) = false.
Proof.
  intros Hon. unfold handleRowSelect. rewrite Hon. simpl.
  exists (length (arrays w)). rewrite lastSelection_snoc.
  split; [done|]. rewrite deref_snoc_new. split; [apply sublist_filter|].
  unfold isRowSelected; rewrite ?bind_run; simpl; rewrite ?deref_snoc_new.
  apply (existsb_filter_false (λ row, strict_eq (getRowKey p row 0) (getRowKey p r 0))).
Qed.

(** X14. After a row is checked and the host has fed the emitted
    selection back, the row is selected, provided its key is equal to
    itself (is not NaN). *)
Theorem checked_row_selected (p : DataTableProps) (r : record) (w : world) :
  onRowSelect p = true →
  strict_eq (getRowKey p r 0) (getRowKey p r 0) = true →
  let w1 := snd (handleRowSelect p r true w) in
  ∃ s1, lastSelection w1 = Some s1 ∧
        fst (isRowSelected (withSelectedRows p s1) r w1) = true.
Proof.
  intros Hon Hself. unfold handleRowSelect. rewrite Hon. simpl.
  exists (length (arrays w)). rewrite lastSelection_snoc. split; [done|].
  unfold isRowSelected; rewrite ?bind_run; simpl; rewrite ?deref_snoc_new.
  rewrite existsb_app. simpl.
  unfold getRowKey in *. simpl. rewrite Hself. by rewrite orb_true_r.
Qed.

(** X15. The two selection handlers never change an array that exists
    and never call [onRowClick]: with [onRowSelect] supplied each of them
    makes one new array and calls [onRowSelect] once, with that array;
    without it they do nothing. *)
Theorem selection_handlers_effects (p : DataTableProps) (r : record)
    (checked : bool) (w : world) :
  (let w' := snd (handleRowSelect p r checked w) in
   if onRowSelect p then
     ∃ xs, arrays w' = arrays w ++ [xs] ∧
           calls w' = calls w ++ [RowSelect (length (arrays w))]
   else w' = w) ∧
  (let w' := snd (handleSelectAll p checked w) in
   if onRowSelect p then
     ∃ xs, arrays w' = arrays w ++ [xs] ∧
           calls w' = calls w ++ [RowSelect (length (arrays w))]
   else w' = w).
Proof.
  unfold handleRowSelect, handleSelectAll.
  destruct (onRowSelect p); simpl; [|done].
  destruct checked; simpl; split; by eexists.
Qed.

(** X16. The header checkbox is never checked and indeterminate at once.
    After "select all", with the emitted selection fed back, it is
    checked exactly when [data] is not empty, and not indeterminate;
    after "deselect all" it is neither. *)
Theorem header_checkbox_states (p : DataTableProps) (w : world) :
  onRowSelect p = true →
  (data p < length (arrays w))%nat →
  ¬ (fst (isAllSelected p w) = true ∧ fst (isIndeterminate p w) = true) ∧
  (let w1 := snd (handleSelectAll p true w) in
   ∃ s1, lastSelection w1 = Some s1 ∧
         fst (isAllSelected (withSelectedRows p s1) w1)
         = bool_decide (deref (data p) w ≠ []) ∧
         fst (isIndeterminate (withSelectedRows p s1) w1) = false) ∧
  (let w1 := snd (handleSelectAll p false w) in
   ∃ s1, lastSelection w1 = Some s1 ∧
         fst (isAllSelected (withSelectedRows p s1) w1) = false ∧
         fst (isIndeterminate (withSelectedRows p s1) w1) = false).
Proof.
  intros Hon Hdata. split; [|split].
  - unfold isAllSelected, isIndeterminate. rewrite ?bind_run; simpl.
    intros [Ha Hi]. apply andb_true_iff in Ha as [_ Ha%bool_decide_eq_true].
    apply andb_true_iff in Hi as [_ Hi%bool_decide_eq_true]. lia.
  - unfold handleSelectAll. rewrite Hon. simpl.
    exists (length (arrays w)). rewrite lastSelection_snoc. split; [done|].
    unfold isAllSelected, isIndeterminate. rewrite ?bind_run; simpl.
    rewrite deref_snoc_new, (deref_snoc_old _ _ _ _ w) by done.
    split.
    + rewrite (bool_decide_eq_true_2 (length _ = length _)) by done.
      rewrite andb_true_r. by destruct (deref (data p) w).
    + rewrite (bool_decide_eq_false_2 (length _ < length _)%nat) by lia.
      by rewrite andb_false_r.
  - unfold handleSelectAll. rewrite Hon. simpl.
    exists (length (arrays w)). rewrite lastSelection_snoc. split; [done|].
    unfold isAllSelected, isIndeterminate. rewrite ?bind_run; simpl.
    rewrite deref_snoc_new, (deref_snoc_old _ _ _ _ w) by done. simpl.
    split; [|done].
    by destruct (deref (data p) w).
Qed.

(** X17. A table that is given no [selectedRows] starts every render
    pass with a new empty selection: no row counts as selected, the
    header checkbox is neither checked nor indeterminate, and checking a
    row emits a selection holding that row alone. *)
Theorem without_selectedRows (passed : Passed.DataTableProps) (r : record)
    (w : world) :
  Passed.selectedRows passed = None →
  let p := fst (withDefaults passed w) in
  let w1 := snd (withDefaults passed w) in
  deref (selectedRows p) w1 = [] ∧
  fst (isRowSelected p r w1) = false ∧
  fst (isAllSelected p w1) = false ∧
  fst (isIndeterminate p w1) = false ∧
  (Passed.onRowSelect passed = true →
   ∃ s1, lastSelection (snd (handleRowSelect p r true w1)) = Some s1 ∧
         deref s1 (snd (handleRowSelect p r true w1)) = [r]).
Proof.
  intros Hnone. unfold withDefaults. rewrite bind_run, Hnone. simpl.
  assert (Hsel : deref (length (arrays w))
                   {| arrays := arrays w ++ [[]]; calls := calls w |} = [])
    by apply deref_snoc_new.
  split; [done|].
  split; [unfold isRowSelected; rewrite ?bind_run; simpl; by rewrite Hsel|].
  split.
  { unfold isAllSelected. rewrite ?bind_run; simpl. rewrite Hsel. simpl.
    by destruct (deref (Passed.data passed) _). }
  split; [unfold isIndeterminate; rewrite ?bind_run; simpl; by rewrite Hsel|].
  intros Hon. unfold handleRowSelect. simpl. rewrite Hon. simpl.
  eexists. rewrite lastSelection_snoc. split; [done|].
  rewrite Hsel. simpl.
  replace (S (length (arrays w))) with (length (arrays w ++ [[]]))
    by (rewrite length_app; simpl; lia).
  apply deref_snoc_new.
Qed.

(** ** Columns with unusual keys *)

Section unusual_keys.
Variable localeCompare : string → string → Z.
Variable stringToNumber : string → number.

(** X18. A sortable column whose key is the empty string never sorts:
    after a click on its header, from any state, the view is [data]
    itself. *)
Theorem empty_key_never_sorts (p : DataTableProps) (column : Column)
    (s : SortState) (w : world) :
  sortable column = true →
  key column = EmptyString →
  sortedData localeCompare stringToNumber p (handleSort column s) w = (data p, w).
Proof.
  intros Hs Hk. unfold handleSort, sortedData. rewrite Hs, Hk. simpl.
  repeat (case_bool_decide; simpl; try done).
Qed.

(** X19. The view is sorted by the first column that carries the active
    key: when a later column [c2] has the key of an earlier column [c1],
    sorting on [c2] orders the rows by the field of [c1]. *)
Theorem first_column_with_key_sorts (cols : list Column) (c1 c2 : Column)
    (o : SortOrder) (xs : list record) :
  key c2 ≠ EmptyString →
  find (λ col, bool_decide (Some (key col) = Some (key c2))) cols = Some c1 →
  sortedView localeCompare stringToNumber cols (sortingOn c2 o) xs
  = sort_list (comparator localeCompare stringToNumber c1 (sortingOn c1 o)) xs.
Proof.
  intros Hk Hfind. unfold sortedView. simpl.
  rewrite bool_decide_eq_false_2 by done. simpl. rewrite Hfind.
  apply sort_list_ext. intros a b. unfold sortingOn.
  by rewrite !comparator_values.
Qed.

End unusual_keys.

(** ** A click and the view it gives *)

Lemma find_column_by_key (cols : list Column) (column : Column) :
  NoDup (map key cols) → column ∈ cols →
  find (λ col, bool_decide (Some (key col) = Some (key column))) cols
  = Some column.
Proof.
  induction cols as [|c cols IH]; simpl; intros Hnd Hin.
  - by apply elem_of_nil in Hin.
  - apply NoDup_cons in Hnd as [Hc Hnd].
    apply elem_of_cons in Hin as [->|Hin].
    + by rewrite bool_decide_eq_true_2.
    + rewrite bool_decide_eq_false_2; [by apply IH|].
      intros [= Heq]. apply Hc. rewrite Heq.
      apply list_elem_of_fmap. by exists column.
Qed.

(** X20. In a table whose column keys are pairwise different, a click on
    a sortable column with a non-empty key that is not the active one
    shows the rows sorted ascending by that column, and a second click
    shows them sorted descending by it. *)
Theorem click_sorts (localeCompare : string → string → Z)
    (stringToNumber : string → number)
    (cols : list Column) (column : Column) (s : SortState) (xs : list record) :
  sortable column = true →
  key column ≠ EmptyString →
  column ∈ cols →
  NoDup (map key cols) →
  skey s ≠ Some (key column) →
  sortedView localeCompare stringToNumber cols (handleSort column s) xs
  = sort_list (comparator localeCompare stringToNumber column
                 (sortingOn column asc)) xs ∧
  sortedView localeCompare stringToNumber cols
    (handleSort column (handleSort column s)) xs
  = sort_list (comparator localeCompare stringToNumber column
                 (sortingOn column desc)) xs.
Proof.
  intros Hs Hk Hin Hnd Hne.
  assert (E1 : handleSort column s = sortingOn column asc).
  { unfold handleSort. rewrite Hs. simpl. by rewrite bool_decide_eq_false_2. }
  assert (E2 : handleSort column (sortingOn column asc) = sortingOn column desc).
  { unfold handleSort. rewrite Hs. simpl. by rewrite bool_decide_eq_true_2. }
  rewrite E1, E2. unfold sortedView. simpl.
  rewrite bool_decide_eq_false_2 by done. simpl.
  by rewrite find_column_by_key.
Qed.

Lemma click_sorts_witness :
  sortedView Sample.localeCompare Sample.stringToNumber
    [Sample.colId; Sample.colV] (handleSort Sample.colV initialSortState)
    Sample.rows
  = sort_list (comparator Sample.localeCompare Sample.stringToNumber Sample.colV
                 (sortingOn Sample.colV asc)) Sample.rows ∧
  sortedView Sample.localeCompare Sample.stringToNumber
    [Sample.colId; Sample.colV]
    (handleSort Sample.colV (handleSort Sample.colV initialSortState))
    Sample.rows
  = sort_list (comparator Sample.localeCompare Sample.stringToNumber Sample.colV
                 (sortingOn Sample.colV desc)) Sample.rows.
Proof.
  apply (click_sorts Sample.localeCompare Sample.stringToNumber
           [Sample.colId; Sample.colV] Sample.colV initialSortState Sample.rows).
  - reflexivity.
  - discriminate.
  - apply list_elem_of_further, list_elem_of_here.
  - apply (bool_decide_unpack _). vm_compute. exact I.
  - discriminate.
Defined.

(** ** The properties on the sample inputs *)

Lemma ranked_sort_ordered_witness :
  StronglySorted (λ a b, integer_of Sample.colV a ≤ integer_of Sample.colV b)
    (sort_list (comparator Sample.localeCompare Sample.stringToNumber
                  Sample.colV (sortingOn Sample.colV asc)) Cases.scores) ∧
  StronglySorted (λ a b, integer_of Sample.colV b ≤ integer_of Sample.colV a)
    (sort_list (comparator Sample.localeCompare Sample.stringToNumber
                  Sample.colV (sortingOn Sample.colV desc)) Cases.scores).
Proof.
  apply (ranked_sort_ordered Sample.localeCompare Sample.stringToNumber
           Sample.colV (integer_of Sample.colV) Cases.scores).
  by vm_compute.
Defined.

Lemma ranked_sort_stable_witness :
  filter (λ r, integer_of Sample.colV r = 20)
    (sort_list (comparator Sample.localeCompare Sample.stringToNumber
                  Sample.colV (sortingOn Sample.colV asc)) Cases.scores)
  = filter (λ r, integer_of Sample.colV r = 20) Cases.scores ∧
  filter (λ r, integer_of Sample.colV r = 20)
    (sort_list (comparator Sample.localeCompare Sample.stringToNumber
                  Sample.colV (sortingOn Sample.colV desc)) Cases.scores)
  = filter (λ r, integer_of Sample.colV r = 20) Cases.scores.
Proof.
  apply (ranked_sort_stable Sample.localeCompare Sample.stringToNumber
           Sample.colV (integer_of Sample.colV) Cases.scores 20).
  by vm_compute.
Defined.

Lemma integer_column_ranked_witness :
  ranked_by (comparator Sample.localeCompare Sample.stringToNumber
               Sample.colV (sortingOn Sample.colV asc))
    (integer_of Sample.colV) Cases.scores = true.
Proof.
  apply (integer_column_ranked Sample.localeCompare Sample.stringToNumber
           Sample.colV Cases.scores).
  reflexivity.
Defined.

Lemma tbody_empty_witness :
  fst (tbody Sample.localeCompare Sample.stringToNumber
         (fst (withDefaults Demo.emptyTable Demo.wEmpty)) initialSortState
         (snd (withDefaults Demo.emptyTable Demo.wEmpty)))
  = [emptyRow (fst (withDefaults Demo.emptyTable Demo.wEmpty))].
Proof.
  apply (tbody_empty Sample.localeCompare Sample.stringToNumber
           (fst (withDefaults Demo.emptyTable Demo.wEmpty)) initialSortState
           (snd (withDefaults Demo.emptyTable Demo.wEmpty)));
    reflexivity.
Defined.

Lemma tbody_rows_witness :
  length (fst (tbody Sample.localeCompare Sample.stringToNumber Sample.props
                 (sortingOn Sample.colV asc) Sample.w0)) = 3%nat ∧
  map (λ row, attrOf "key" (attrsOf row))
    (fst (tbody Sample.localeCompare Sample.stringToNumber Sample.props
            (sortingOn Sample.colV asc) Sample.w0))
  = imap (λ j r, Some (AKey (getRowKey Sample.props r j)))
         (sortedView Sample.localeCompare Sample.stringToNumber
            [Sample.colId; Sample.colV] (sortingOn Sample.colV asc) Sample.rows).
Proof.
  apply (tbody_rows Sample.localeCompare Sample.stringToNumber Sample.props
           (sortingOn Sample.colV asc) Sample.w0).
  - reflexivity.
  - simpl. discriminate.
Defined.

Lemma one_lit_arrow_witness :
  (sum_list (map (λ column, litArrows (renderSortIcon
                                         (sortingOn (Demo.column "role" "Role") desc)
                                         column))
               Demo.userColumns) ≤ 1)%nat.
Proof.
  apply (one_lit_arrow (sortingOn (Demo.column "role" "Role") desc)
           Demo.userColumns).
  apply (bool_decide_unpack _). vm_compute. exact I.
Defined.

Lemma same_key_same_selection_witness :
  isRowSelected Sample.props (Sample.row 1 (VNum (Fin 20))) Sample.wSel
  = isRowSelected Sample.props (Sample.row 1 (VNum (Fin 99))) Sample.wSel ∧
  handleRowSelect Sample.props (Sample.row 1 (VNum (Fin 20))) false Sample.wSel
  = handleRowSelect Sample.props (Sample.row 1 (VNum (Fin 99))) false Sample.wSel.
Proof.
  apply (same_key_same_selection Sample.props (Sample.row 1 (VNum (Fin 20)))
           (Sample.row 1 (VNum (Fin 99))) Sample.wSel).
  reflexivity.
Defined.

Lemma keyless_rows_collide_witness :
  getRowKey Sample.props Cases.noId1 0 = VNum (Fin 0) ∧
  fst (isRowSelected Sample.props Cases.noId1 Cases.wNoId) = true.
Proof.
  apply (keyless_rows_collide Sample.props "id" Cases.noId1 Cases.noId2
           Cases.wNoId).
  - reflexivity.
  - reflexivity.
  - left. reflexivity.
  - simpl. apply list_elem_of_here.
Defined.

Lemma unchecked_row_not_selected_witness :
  ∃ s1,
    lastSelection (snd (handleRowSelect Sample.props
                          (Sample.row 1 (VNum (Fin 20))) false Sample.wSel))
    = Some s1 ∧
    sublist
      (deref s1 (snd (handleRowSelect Sample.props
                        (Sample.row 1 (VNum (Fin 20))) false Sample.wSel)))
      (deref (selectedRows Sample.props) Sample.wSel) ∧
    fst (isRowSelected (withSelectedRows Sample.props s1)
           (Sample.row 1 (VNum (Fin 20)))
           (snd (handleRowSelect Sample.props
                   (Sample.row 1 (VNum (Fin 20))) false Sample.wSel)))
    = false.
Proof.
  apply (unchecked_row_not_selected Sample.props (Sample.row 1 (VNum (Fin 20)))
           Sample.wSel).
  reflexivity.
Defined.

Lemma checked_row_selected_witness :
  ∃ s1,
    lastSelection (snd (handleRowSelect Sample.props
                          (Sample.row 2 (VNum (Fin 10))) true Sample.wSel))
    = Some s1 ∧
    fst (isRowSelected (withSelectedRows Sample.props s1)
           (Sample.row 2 (VNum (Fin 10)))
           (snd (handleRowSelect Sample.props
                   (Sample.row 2 (VNum (Fin 10))) true Sample.wSel)))
    = true.
Proof.
  apply (checked_row_selected Sample.props (Sample.row 2 (VNum (Fin 10)))
           Sample.wSel);
    reflexivity.
Defined.

Lemma header_checkbox_states_witness :
  ∃ s1,
    lastSelection (snd (handleSelectAll Sample.props true Sample.w0)) = Some s1 ∧
    fst (isAllSelected (withSelectedRows Sample.props s1)
           (snd (handleSelectAll Sample.props true Sample.w0)))
    = bool_decide (deref (data Sample.props) Sample.w0 ≠ []) ∧
    fst (isIndeterminate (withSelectedRows Sample.props s1)
           (snd (handleSelectAll Sample.props true Sample.w0)))
    = false.
Proof.
  assert (Hdata : (data Sample.props < length (arrays Sample.w0))%nat)
    by (simpl; lia).
  exact (proj1 (proj2 (header_checkbox_states Sample.props Sample.w0
                         eq_refl Hdata))).
Defined.

Lemma without_selectedRows_witness :
  deref (selectedRows (fst (withDefaults Demo.userTable Demo.w0)))
    (snd (withDefaults Demo.userTable Demo.w0)) = [] ∧
  fst (isRowSelected (fst (withDefaults Demo.userTable Demo.w0))
         (Demo.user "1" "John Doe" "john.doe@example.com" "Admin" "active"
            "2024-01-15")
         (snd (withDefaults Demo.userTable Demo.w0))) = false.
Proof.
  destruct (without_selectedRows Demo.userTable
              (Demo.user "1" "John Doe" "john.doe@example.com" "Admin" "active"
                 "2024-01-15")
              Demo.w0 eq_refl) as (Hsel & Hrow & _).
  split; [exact Hsel | exact Hrow].
Defined.

Lemma empty_key_never_sorts_witness :
  sortedData Sample.localeCompare Sample.stringToNumber Sample.props
    (handleSort Cases.blank initialSortState) Sample.w0
  = (data Sample.props, Sample.w0).
Proof.
  apply (empty_key_never_sorts Sample.localeCompare Sample.stringToNumber
           Sample.props Cases.blank initialSortState Sample.w0);
    reflexivity.
Defined.

Lemma first_column_with_key_sorts_witness :
  sortedView Sample.localeCompare Sample.stringToNumber
    [Sample.colV; Cases.shadow] (sortingOn Cases.shadow asc) Sample.rows
  = sort_list (comparator Sample.localeCompare Sample.stringToNumber
                 Sample.colV (sortingOn Sample.colV asc)) Sample.rows.
Proof.
  apply (first_column_with_key_sorts Sample.localeCompare Sample.stringToNumber
           [Sample.colV; Cases.shadow] Sample.colV Cases.shadow asc Sample.rows).
  - discriminate.
  - reflexivity.
Defined.
